(** * Room-scoped publish/subscribe hub of the chat API (package [api])

    A shallow embedding of [internal/api]: the subscriber registry
    [apiHandler.subscribers], the broadcast [notifyClients], the connection
    lifecycle [handleSubscribe], the event-producing handlers and the helpers
    of [utils.go] ([readRoom], [readMessage], [sendJSON]).

    Conventions.
    - The mutex [h.mu] makes every critical section atomic, so a critical
      section is one function on the state [World].
    - A [*websocket.Conn] and a [context.CancelFunc] are identified by the
      address of the object ([positive]); fresh ones come from counters.
    - Third-party libraries (uuid, encoding/json's string quoting and
      decoding, the websocket upgrader) and the store [pgstore.Queries]
      are interfaces ([Libs], [Pgstore]); every theorem holds for all
      their implementations. *)

From Stdlib Require Import Ascii String ZArith.
From stdpp Require Import gmap strings list fin_maps pretty.

Set Warnings "-register-all".

(** ** Errors and results *)

(** Go's [error] values that the handlers tell apart: [pgx.ErrNoRows]
    (tested with [errors.Is]) and any other error, kept as its text. *)
Inductive error :=
| ErrNoRows
| ErrorString (text : string).

Definition error_text (e : error) : string :=
  match e with
  | ErrNoRows => "no rows in result set"
  | ErrorString s => s
  end.

(** [errors.Is(err, pgx.ErrNoRows)] *)
Definition is_ErrNoRows (e : error) : bool :=
  match e with
  | ErrNoRows => true
  | ErrorString _ => false
  end.

(** A Go result pair [(value, err)]: the callers in this package test
    [err] first and do not use the value when [err] is not nil. *)
Inductive result (A : Type) :=
| Ok (a : A)
| Err (e : error).
Arguments Ok {A} a.
Arguments Err {A} e.

(** ** JSON documents *)

Inductive json :=
| JNull
| JBool (b : bool)
| JNumber (n : Z)
| JString (s : string)
| JArray (elems : list json)
| JObject (members : list (string * json)).

(** [int64]: an integer in the signed 64-bit range. *)
Definition int64_range (z : Z) : bool :=
  ((-9223372036854775808 <=? z) && (z <=? 9223372036854775807))%Z.

Record int64 := Int64 {
  int64_val : Z;
  int64_in_range : int64_range int64_val = true
}.

(** A Go slice, which is either [nil] or holds elements. *)
Inductive slice (A : Type) :=
| nil_slice
| Slice (elems : list A).
Arguments nil_slice {A}.
Arguments Slice {A} elems.

(** What [encoding/json] makes of a Go value of type [A]: its document, or
    an error for a value it cannot encode. *)
Class Marshaler (A : Type) := MarshalJSON : A → result json.

Fixpoint marshal_elems {A} `{Marshaler A} (l : list A) : result (list json) :=
  match l with
  | [] => Ok []
  | x :: rest =>
      match MarshalJSON x with
      | Err e => Err e
      | Ok j =>
          match marshal_elems rest with
          | Err e => Err e
          | Ok js => Ok (j :: js)
          end
      end
  end.

#[export] Instance string_Marshaler : Marshaler string :=
  fun s => Ok (JString s).

#[export] Instance int64_Marshaler : Marshaler int64 :=
  fun n => Ok (JNumber (int64_val n)).

(** a nil slice encodes as [null], a non-nil one as an array *)
#[export] Instance slice_Marshaler {A} `{Marshaler A} : Marshaler (slice A) :=
  fun s =>
    match s with
    | nil_slice => Ok JNull
    | Slice l =>
        match marshal_elems l with
        | Err e => Err e
        | Ok js => Ok (JArray js)
        end
    end.

(** A value of type [any]: a dynamic type, its encoder and the value. *)
Record any := Any {
  any_type : Type;
  any_marshaler : Marshaler any_type;
  any_value : any_type
}.
Arguments Any {any_type any_marshaler} any_value.

#[export] Instance any_Marshaler : Marshaler any :=
  fun v => @MarshalJSON (any_type v) (any_marshaler v) (any_value v).

(** ** HTTP requests and response writers *)

Definition StatusOK : nat := 200.
Definition StatusBadRequest : nat := 400.
Definition StatusInternalServerError : nat := 500.

(** An [http.ResponseWriter]: the header map, the status line once it has
    been written, and the body written so far. *)
Record ResponseWriter := {
  Header : gmap string string;
  Status : option nat;
  Body : string
}.

Definition NewResponseWriter : ResponseWriter :=
  {| Header := ∅; Status := None; Body := "" |}.

Definition Header_Set (k v : string) (w : ResponseWriter) : ResponseWriter :=
  {| Header := <[k := v]> (Header w); Status := Status w; Body := Body w |}.

(** the first call fixes the status; later calls are ignored *)
Definition WriteHeader (code : nat) (w : ResponseWriter) : ResponseWriter :=
  match Status w with
  | Some _ => w
  | None => {| Header := Header w; Status := Some code; Body := Body w |}
  end.

(** [w.Write(data)]: writes the header with status 200 if none was written *)
Definition Write (data : string) (w : ResponseWriter) : ResponseWriter :=
  let w := WriteHeader StatusOK w in
  {| Header := Header w; Status := Status w; Body := Body w +:+ data |}.

Definition newline : string := String "010"%char EmptyString.

(** [http.Error(w, msg, code)] *)
Definition http_Error (w : ResponseWriter) (msg : string) (code : nat)
  : ResponseWriter :=
  let w := Header_Set "Content-Type" "text/plain; charset=utf-8" w in
  let w := Header_Set "X-Content-Type-Options" "nosniff" w in
  let w := WriteHeader code w in
  Write (msg +:+ newline) w.

Record Request := {
  URLParams : gmap string string;   (* route parameters bound by chi *)
  ReqBody : string;
  RemoteAddr : string
}.

(** [chi.URLParam(r, key)]: the empty string when the key is not bound *)
Definition URLParam (r : Request) (key : string) : string :=
  default "" (URLParams r !! key).

(** ** Third-party libraries *)

Class Libs := {
  (** [encoding/json]: the quoted, escaped literal of a string *)
  json_quote : string → string;
  (** [json.NewDecoder(body).Decode(&s)] for a struct [s] with the single
      string field tagged [field] *)
  json_decode_field : string → string → result string;
  (** [github.com/google/uuid] *)
  UUID : Type;
  uuid_Parse : string → result UUID;
  uuid_String : UUID → string;
  (** [websocket.Upgrader.Upgrade(w, r, nil)]: [None] when the handshake is
      accepted and the connection taken over, else the error, after the
      upgrader has written its own refusal to [w] *)
  ws_Upgrade : ResponseWriter → Request → ResponseWriter * option error
}.

Section Encoding.
Context `{Libs}.

(** The text of a document, as [json.Marshal] writes it: no white space,
    members in the order given. *)
Fixpoint json_encode (j : json) : string :=
  match j with
  | JNull => "null"
  | JBool true => "true"
  | JBool false => "false"
  | JNumber n => pretty n
  | JString s => json_quote s
  | JArray l =>
      "[" +:+
      (fix elems (l : list json) : string :=
         match l with
         | [] => ""
         | x :: rest =>
             match rest with
             | [] => json_encode x
             | _ :: _ => json_encode x +:+ "," +:+ elems rest
             end
         end) l +:+ "]"
  | JObject fs =>
      "{" +:+
      (fix members (fs : list (string * json)) : string :=
         match fs with
         | [] => ""
         | (k, v) :: rest =>
             match rest with
             | [] => json_quote k +:+ ":" +:+ json_encode v
             | _ :: _ =>
                 json_quote k +:+ ":" +:+ json_encode v +:+ "," +:+ members rest
             end
         end) fs +:+ "}"
  end.

(** [json.Marshal]: the bytes and the error; the bytes are nil on error. *)
Definition json_Marshal {A} `{Marshaler A} (v : A) : string * option error :=
  match MarshalJSON v with
  | Ok j => (json_encode j, None)
  | Err e => ("", Some e)
  end.

End Encoding.

(** utils.go, [sendJSON] *)
Definition sendJSON `{Libs} {A} `{Marshaler A}
  (w : ResponseWriter) (rawData : A) : ResponseWriter :=
  let '(data, _) := json_Marshal rawData in
  let w := Header_Set "Content-Type" "application/json" w in
  Write data w.

(** ** Events ([Message] and its payloads) *)

Definition MessageKind := string.

Definition MessageCreated : MessageKind := "message_created".
Definition MessageRactionIncreased : MessageKind := "message_reaction_increased".
Definition MessageRactionDecreased : MessageKind := "message_reaction_decreased".
Definition MessageAnswered : MessageKind := "message_answered".

Record MessagMessageCreated := {
  created_ID : string;        (* json:"id" *)
  created_Message : string    (* json:"message" *)
}.

Record MessageMessageReactionIncreased := {
  increased_ID : string;      (* json:"id" *)
  increased_Count : int64     (* json:"count" *)
}.

Record MessageMessageReactionDecreased := {
  decreased_ID : string;      (* json:"id" *)
  decreased_Count : int64     (* json:"count" *)
}.

Record MessageMessageAnswered := {
  answered_ID : string        (* json:"id" *)
}.

Record Message := {
  Kind : MessageKind;         (* json:"kind" *)
  Value : any;                (* json:"value" *)
  RoomID : string             (* json:"-" *)
}.

#[export] Instance MessagMessageCreated_Marshaler
  : Marshaler MessagMessageCreated :=
  fun v => Ok (JObject [("id", JString (created_ID v));
                        ("message", JString (created_Message v))]).

#[export] Instance MessageMessageReactionIncreased_Marshaler
  : Marshaler MessageMessageReactionIncreased :=
  fun v => Ok (JObject [("id", JString (increased_ID v));
                        ("count", JNumber (int64_val (increased_Count v)))]).

#[export] Instance MessageMessageReactionDecreased_Marshaler
  : Marshaler MessageMessageReactionDecreased :=
  fun v => Ok (JObject [("id", JString (decreased_ID v));
                        ("count", JNumber (int64_val (decreased_Count v)))]).

#[export] Instance MessageMessageAnswered_Marshaler
  : Marshaler MessageMessageAnswered :=
  fun v => Ok (JObject [("id", JString (answered_ID v))]).

(** the field [RoomID] carries the tag [json:"-"] and is skipped *)
#[export] Instance Message_Marshaler : Marshaler Message :=
  fun m =>
    match MarshalJSON (Value m) with
    | Err e => Err e
    | Ok v => Ok (JObject [("kind", JString (Kind m)); ("value", v)])
    end.

(** The handlers' anonymous [response] structs. *)
Record responseID := { response_ID : string }.        (* json:"id" *)
Record responseCount := { response_Count : int64 }.   (* json:"count" *)

#[export] Instance responseID_Marshaler : Marshaler responseID :=
  fun v => Ok (JObject [("id", JString (response_ID v))]).

#[export] Instance responseCount_Marshaler : Marshaler responseCount :=
  fun v => Ok (JObject [("count", JNumber (int64_val (response_Count v)))]).

(** The events the handlers build, at their four [go h.notifyClients]
    calls. *)
Inductive produced : Message → Prop :=
| produced_created id text room :
    produced {| Kind := MessageCreated;
                Value := Any {| created_ID := id; created_Message := text |};
                RoomID := room |}
| produced_increased id count room :
    produced {| Kind := MessageRactionIncreased;
                Value := Any {| increased_ID := id; increased_Count := count |};
                RoomID := room |}
| produced_decreased id count room :
    produced {| Kind := MessageRactionDecreased;
                Value := Any {| decreased_ID := id; decreased_Count := count |};
                RoomID := room |}
| produced_answered id room :
    produced {| Kind := MessageAnswered;
                Value := Any {| answered_ID := id |};
                RoomID := room |}.

(** The wire format as the specification fixes it: the four envelopes
    [{kind, value}], to be compared with what the code sends. *)
Inductive wire_form : json → Prop :=
| wire_created id text :
    wire_form (JObject [("kind", JString "message_created");
                        ("value", JObject [("id", JString id);
                                           ("message", JString text)])])
| wire_increased id count :
    int64_range count = true →
    wire_form (JObject [("kind", JString "message_reaction_increased");
                        ("value", JObject [("id", JString id);
                                           ("count", JNumber count)])])
| wire_decreased id count :
    int64_range count = true →
    wire_form (JObject [("kind", JString "message_reaction_decreased");
                        ("value", JObject [("id", JString id);
                                           ("count", JNumber count)])])
| wire_answered id :
    wire_form (JObject [("kind", JString "message_answered");
                        ("value", JObject [("id", JString id)])]).

(** ** The store ([pgstore.Queries]) *)

Class Pgstore `{Libs} := {
  DB : Type;                  (* the database's contents *)
  Room : Type;                (* pgstore.Room *)
  StoreMessage : Type;        (* pgstore.Message *)
  Room_Marshaler :: Marshaler Room;
  StoreMessage_Marshaler :: Marshaler StoreMessage;
  GetRoom : DB → UUID → result Room;
  GetRooms : DB → result (slice Room);
  GetMessage : DB → UUID → result StoreMessage;
  GetRoomMessages : DB → UUID → result (slice StoreMessage);
  InsertRoom : DB → string → DB * result UUID;
  (** the arguments are the fields of [InsertMessageParams] *)
  InsertMessage : DB → UUID → string → DB * result UUID;
  ReactToMessage : DB → UUID → DB * result int64;
  RemoveReactionFromMessage : DB → UUID → DB * result int64;
  MarkMessageAsAnswered : DB → UUID → DB * option error
}.

(** ** The state of the process *)

Abbreviation Conn := positive (only parsing).        (* *websocket.Conn *)
Abbreviation CancelFunc := positive (only parsing).  (* context.CancelFunc *)

Inductive Level := LevelInfo | LevelWarn | LevelError.

Record LogEntry := {
  log_level : Level;
  log_msg : string;
  log_attrs : list (string * string)
}.

(** A [handleSubscribe] call parked on [<-ctx.Done()], with its locals. *)
Record Subscription := {
  sub_room : string;          (* rawRoomID *)
  sub_conn : Conn;            (* c *)
  sub_cancel : CancelFunc     (* cancel, and the context it cancels *)
}.

#[export] Instance Subscription_eq_dec : EqDecision Subscription.
Proof. solve_decision. Defined.

(** The routes of [NewHandler]. *)

Inductive Route :=
| GET_subscribe             (* /subscribe/{room_id} *)
| POST_rooms                (* /api/rooms/ *)
| GET_rooms
| POST_messages             (* /api/rooms/{room_id}/messages/ *)
| GET_messages
| GET_message               (* .../messages/{message_id}/ *)
| PATCH_react               (* .../{message_id}/react *)
| DELETE_react
| PATCH_answer.             (* .../{message_id}/answer *)

#[export] Instance Route_eq_dec : EqDecision Route.
Proof. solve_decision. Defined.

(** the routes of the four handlers that publish an event *)
Definition is_producer (rt : Route) : bool :=
  match rt with
  | POST_messages | PATCH_react | DELETE_react | PATCH_answer => true
  | _ => false
  end.

(** the routes whose handler starts with [readRoom], and those whose
    handler goes on with [readMessage] *)
Definition uses_room (rt : Route) : bool :=
  match rt with
  | POST_rooms | GET_rooms => false
  | _ => true
  end.

Definition uses_message (rt : Route) : bool :=
  match rt with
  | GET_message | PATCH_react | DELETE_react | PATCH_answer => true
  | _ => false
  end.

Section Model.
Context `{Pgstore}.

Record World := {
  db : DB;
  (** [h.subscribers] *)
  subscribers : gmap string (gmap Conn CancelFunc);
  (** the contexts whose [Done] channel is closed *)
  ctx_done : gset CancelFunc;
  (** the connections on which a write returns an error: the peer is gone,
      the network failed, or the connection was closed *)
  broken : gset Conn;
  (** every [WriteJSON] call so far, oldest first: the connection and the
      document delivered, or the error returned *)
  wire : list (Conn * result json);
  logs : list LogEntry;
  (** the [go h.notifyClients(msg)] calls that have not run yet *)
  goroutines : list Message;
  (** the [handleSubscribe] calls blocked on their context *)
  waiting : list Subscription;
  next_conn : Conn;
  next_ctx : CancelFunc
}.

(** [NewHandler]: an empty registry over the store [d] *)
Definition NewHandler (d : DB) : World :=
  {| db := d; subscribers := ∅; ctx_done := ∅; broken := ∅; wire := [];
     logs := []; goroutines := []; waiting := []; next_conn := 1;
     next_ctx := 1 |}.

Definition set_db (d : DB) (w : World) : World :=
  {| db := d; subscribers := subscribers w; ctx_done := ctx_done w;
     broken := broken w; wire := wire w; logs := logs w;
     goroutines := goroutines w; waiting := waiting w;
     next_conn := next_conn w; next_ctx := next_ctx w |}.

Definition set_subscribers (s : gmap string (gmap Conn CancelFunc))
  (w : World) : World :=
  {| db := db w; subscribers := s; ctx_done := ctx_done w;
     broken := broken w; wire := wire w; logs := logs w;
     goroutines := goroutines w; waiting := waiting w;
     next_conn := next_conn w; next_ctx := next_ctx w |}.

Definition set_ctx_done (s : gset CancelFunc) (w : World) : World :=
  {| db := db w; subscribers := subscribers w; ctx_done := s;
     broken := broken w; wire := wire w; logs := logs w;
     goroutines := goroutines w; waiting := waiting w;
     next_conn := next_conn w; next_ctx := next_ctx w |}.

Definition set_broken (s : gset Conn) (w : World) : World :=
  {| db := db w; subscribers := subscribers w; ctx_done := ctx_done w;
     broken := s; wire := wire w; logs := logs w;
     goroutines := goroutines w; waiting := waiting w;
     next_conn := next_conn w; next_ctx := next_ctx w |}.

Definition set_wire (l : list (Conn * result json)) (w : World) : World :=
  {| db := db w; subscribers := subscribers w; ctx_done := ctx_done w;
     broken := broken w; wire := l; logs := logs w;
     goroutines := goroutines w; waiting := waiting w;
     next_conn := next_conn w; next_ctx := next_ctx w |}.

Definition set_logs (l : list LogEntry) (w : World) : World :=
  {| db := db w; subscribers := subscribers w; ctx_done := ctx_done w;
     broken := broken w; wire := wire w; logs := l;
     goroutines := goroutines w; waiting := waiting w;
     next_conn := next_conn w; next_ctx := next_ctx w |}.

Definition set_goroutines (l : list Message) (w : World) : World :=
  {| db := db w; subscribers := subscribers w; ctx_done := ctx_done w;
     broken := broken w; wire := wire w; logs := logs w;
     goroutines := l; waiting := waiting w;
     next_conn := next_conn w; next_ctx := next_ctx w |}.

Definition set_waiting (l : list Subscription) (w : World) : World :=
  {| db := db w; subscribers := subscribers w; ctx_done := ctx_done w;
     broken := broken w; wire := wire w; logs := logs w;
     goroutines := goroutines w; waiting := l;
     next_conn := next_conn w; next_ctx := next_ctx w |}.

(** a new connection object and a new cancelable context *)
Definition alloc (w : World) : World :=
  {| db := db w; subscribers := subscribers w; ctx_done := ctx_done w;
     broken := broken w; wire := wire w; logs := logs w;
     goroutines := goroutines w; waiting := waiting w;
     next_conn := Pos.succ (next_conn w); next_ctx := Pos.succ (next_ctx w) |}.

(** [slog.Info], [slog.Warn], [slog.Error] *)
Definition slog (lvl : Level) (msg : string) (attrs : list (string * string))
  (w : World) : World :=
  set_logs (logs w ++ [{| log_level := lvl; log_msg := msg;
                          log_attrs := attrs |}]) w.

(** calling a [context.CancelFunc]: closes the context's [Done] channel;
    a second call changes nothing *)
Definition cancel_ctx (cancel : CancelFunc) (w : World) : World :=
  set_ctx_done ({[cancel]} ∪ ctx_done w) w.

(** [go h.notifyClients(msg)] *)
Definition go_notifyClients (msg : Message) (w : World) : World :=
  set_goroutines (goroutines w ++ [msg]) w.

(** What one [conn.WriteJSON(v)] call gives back: an error on a broken
    connection and on a value that has no encoding, and otherwise nil,
    after it has sent one text frame holding the document of [v]. The
    outcome is about the returned value and the document: when the encoder
    fails the library still closes the message writer, so an empty frame
    can reach the peer, which the trace does not record. *)
Definition write_outcome {A} `{Marshaler A} (bad : gset Conn) (conn : Conn)
  (v : A) : result json :=
  if decide (conn ∈ bad) then Err (ErrorString "write: connection closed")
  else MarshalJSON v.

Definition WriteJSON {A} `{Marshaler A} (conn : Conn) (v : A) (w : World)
  : World * option error :=
  let outcome := write_outcome (broken w) conn v in
  (set_wire (wire w ++ [(conn, outcome)]) w,
   match outcome with
   | Err e => Some e
   | Ok _ => None
   end).

(** *** The registry's critical sections, in [handleSubscribe] *)

(** [if _, ok := h.subscribers[room]; !ok { ... make ... }]: the room's set
    is made if the room has none *)
Definition ensure_room (room : string)
  (subs : gmap string (gmap Conn CancelFunc))
  : gmap string (gmap Conn CancelFunc) :=
  match subs !! room with
  | None => <[room := ∅]> subs
  | Some _ => subs
  end.

(** [h.subscribers[room][c] = cancel]. Go panics on a write to
    the nil map of a room without an entry; the handler makes the entry
    first, under the same lock. *)
Definition insert_subscriber (room : string) (c : Conn) (cancel : CancelFunc)
  (subs : gmap string (gmap Conn CancelFunc))
  : gmap string (gmap Conn CancelFunc) :=
  match subs !! room with
  | Some set => <[room := <[c := cancel]> set]> subs
  | None => subs
  end.

(** the first critical section, as far as the registry goes *)
Definition register (room : string) (c : Conn) (cancel : CancelFunc)
  (subs : gmap string (gmap Conn CancelFunc))
  : gmap string (gmap Conn CancelFunc) :=
  insert_subscriber room c cancel (ensure_room room subs).

(** the second critical section: [delete(h.subscribers[room], c)]; reading a room
    without an entry gives a nil map, on which [delete] does nothing *)
Definition deregister (room : string) (c : Conn)
  (subs : gmap string (gmap Conn CancelFunc))
  : gmap string (gmap Conn CancelFunc) :=
  match subs !! room with
  | None => subs
  | Some set => <[room := delete c set]> subs
  end.

(** *** [notifyClients] *)

(** the body of the [for conn, cancel := range subscribers] loop *)
Definition notify_one (msg : Message) (conn : Conn) (cancel : CancelFunc)
  (w : World) : World :=
  match WriteJSON conn msg w with
  | (w, Some err) =>
      let w := slog LevelError "failed send message to clients"
                 [("error", error_text err)] w in
      cancel_ctx cancel w
  | (w, None) => w
  end.

(** the line a failed write leaves in the log *)
Definition failure_log (e : error) : LogEntry :=
  {| log_level := LevelError; log_msg := "failed send message to clients";
     log_attrs := [("error", error_text e)] |}.

Fixpoint range_subscribers (msg : Message) (order : list (Conn * CancelFunc))
  (w : World) : World :=
  match order with
  | [] => w
  | (conn, cancel) :: rest =>
      range_subscribers msg rest (notify_one msg conn cancel w)
  end.

(** Go's [range] visits every entry of a map once, in an order it does not
    fix: [order] is the order of one run. *)
Definition range_visits (set : gmap Conn CancelFunc)
  (order : list (Conn * CancelFunc)) : Prop :=
  order ≡ₚ map_to_list set.

(** [notifyClients], run under [h.mu] with the loop taking [order] *)
Definition notifyClients (order : list (Conn * CancelFunc)) (msg : Message)
  (w : World) : World :=
  match subscribers w !! RoomID msg with
  | None => w
  | Some set =>
      if decide (size set = 0) then w
      else range_subscribers msg order w
  end.

(** *** utils.go: [readRoom], [readMessage] *)

(** The result is [None] where the Go function returns [ok = false]. *)
Definition readRoom (w : World) (rw : ResponseWriter) (r : Request)
  : World * ResponseWriter * option (Room * string * UUID) :=
  let rawRoomID := URLParam r "room_id" in
  match uuid_Parse rawRoomID with
  | Err _ => (w, http_Error rw "invalid room id" StatusBadRequest, None)
  | Ok roomID =>
      match GetRoom (db w) roomID with
      | Err err =>
          if is_ErrNoRows err then
            (w, http_Error rw "room not found" StatusBadRequest, None)
          else
            let w := slog LevelError "failed to get room"
                       [("error", error_text err)] w in
            (w, http_Error rw "something went wrong"
                  StatusInternalServerError, None)
      | Ok room => (w, rw, Some (room, rawRoomID, roomID))
      end
  end.

Definition readMessage (w : World) (rw : ResponseWriter) (r : Request)
  : World * ResponseWriter * option (StoreMessage * string * UUID) :=
  let rawMessageID := URLParam r "message_id" in
  match uuid_Parse rawMessageID with
  | Err _ => (w, http_Error rw "invalid message id" StatusBadRequest, None)
  | Ok messageID =>
      match GetMessage (db w) messageID with
      | Err err =>
          if is_ErrNoRows err then
            (w, http_Error rw "message not found" StatusBadRequest, None)
          else
            let w := slog LevelError "failed to get message"
                       [("error", error_text err)] w in
            (w, http_Error rw "something went wrong"
                  StatusInternalServerError, None)
      | Ok message => (w, rw, Some (message, rawMessageID, messageID))
      end
  end.

(** *** [handleSubscribe] *)

(** Up to [<-ctx.Done()]: the call returns early, or registers the new
    connection and parks. *)
Definition handleSubscribe (w : World) (rw : ResponseWriter) (r : Request)
  : World * ResponseWriter :=
  match readRoom w rw r with
  | (w, rw, None) => (w, rw)
  | (w, rw, Some (_, rawRoomID, _)) =>
      match ws_Upgrade rw r with
      | (rw, Some err) =>
          let w := slog LevelWarn "failed to upgrade connection"
                     [("error", error_text err)] w in
          (w, http_Error rw "failed to upgrade to ws connection"
                StatusBadRequest)
      | (rw, None) =>
          let c := next_conn w in
          let cancel := next_ctx w in      (* context.WithCancel *)
          let w := alloc w in
          (* h.mu.Lock() *)
          let w := set_subscribers (ensure_room rawRoomID (subscribers w)) w in
          let w := slog LevelInfo "new client connected"
                     [("room_id", rawRoomID); ("client_ip", RemoteAddr r)] w in
          let w := set_subscribers
                     (insert_subscriber rawRoomID c cancel (subscribers w)) w in
          (* h.mu.Unlock(); <-ctx.Done() *)
          let w := set_waiting
                     (waiting w ++ [{| sub_room := rawRoomID; sub_conn := c;
                                       sub_cancel := cancel |}]) w in
          (w, rw)
      end
  end.

(** After [<-ctx.Done()]: the call deregisters its connection under the
    lock, and the deferred [c.Close()] runs. *)
Definition handleSubscribe_resume (s : Subscription) (w : World) : World :=
  let w := set_waiting (filter (λ s', s' ≠ s) (waiting w)) w in
  let w := set_subscribers
             (deregister (sub_room s) (sub_conn s) (subscribers w)) w in
  set_broken ({[sub_conn s]} ∪ broken w) w.

(** *** The other handlers *)

Definition handleCreateRoom (w : World) (rw : ResponseWriter) (r : Request)
  : World * ResponseWriter :=
  match json_decode_field "theme" (ReqBody r) with
  | Err _ => (w, http_Error rw "invalid json" StatusBadRequest)
  | Ok theme =>
      match InsertRoom (db w) theme with
      | (d, Err err) =>
          let w := slog LevelError "failed to insert room"
                     [("error", error_text err)] (set_db d w) in
          (w, http_Error rw "something went wrong" StatusInternalServerError)
      | (d, Ok roomID) =>
          (set_db d w, sendJSON rw {| response_ID := uuid_String roomID |})
      end
  end.

Definition handleGetRooms (w : World) (rw : ResponseWriter) (r : Request)
  : World * ResponseWriter :=
  match GetRooms (db w) with
  | Err err =>
      let w := slog LevelError "failed to get rooms"
                 [("error", error_text err)] w in
      (w, http_Error rw "something went wrong" StatusInternalServerError)
  | Ok rooms =>
      let rooms :=
        match rooms with
        | nil_slice => Slice []
        | Slice _ => rooms
        end in
      (w, sendJSON rw rooms)
  end.

Definition handleCreateRoomMessage (w : World) (rw : ResponseWriter)
  (r : Request) : World * ResponseWriter :=
  match readRoom w rw r with
  | (w, rw, None) => (w, rw)
  | (w, rw, Some (_, rawRoomID, roomID)) =>
      match json_decode_field "message" (ReqBody r) with
      | Err _ => (w, http_Error rw "invalid json" StatusBadRequest)
      | Ok message =>
          match InsertMessage (db w) roomID message with
          | (d, Err err) =>
              let w := slog LevelError "failed to insert message"
                         [("error", error_text err)] (set_db d w) in
              (w, http_Error rw "something went wrong"
                    StatusInternalServerError)
          | (d, Ok messageID) =>
              let w := set_db d w in
              let rw := sendJSON rw
                          {| response_ID := uuid_String messageID |} in
              let w := go_notifyClients
                         {| Kind := MessageCreated;
                            Value := Any {| created_ID := uuid_String messageID;
                                            created_Message := message |};
                            RoomID := rawRoomID |} w in
              (w, rw)
          end
      end
  end.

Definition handleGetRoomMessages (w : World) (rw : ResponseWriter)
  (r : Request) : World * ResponseWriter :=
  match readRoom w rw r with
  | (w, rw, None) => (w, rw)
  | (w, rw, Some (_, _, roomID)) =>
      match GetRoomMessages (db w) roomID with
      | Err err =>
          let w := slog LevelError "failed to get room messages"
                     [("error", error_text err)] w in
          (w, http_Error rw "something went wrong" StatusInternalServerError)
      | Ok messages =>
          let messages :=
            match messages with
            | nil_slice => Slice []
            | Slice _ => messages
            end in
          (w, sendJSON rw messages)
      end
  end.

Definition handleGetRoomMessage (w : World) (rw : ResponseWriter)
  (r : Request) : World * ResponseWriter :=
  match readRoom w rw r with
  | (w, rw, None) => (w, rw)
  | (w, rw, Some _) =>
      match readMessage w rw r with
      | (w, rw, None) => (w, rw)
      | (w, rw, Some (message, _, _)) => (w, sendJSON rw message)
      end
  end.

Definition handleAddReactToMessage (w : World) (rw : ResponseWriter)
  (r : Request) : World * ResponseWriter :=
  match readRoom w rw r with
  | (w, rw, None) => (w, rw)
  | (w, rw, Some (_, rawRoomID, _)) =>
      match readMessage w rw r with
      | (w, rw, None) => (w, rw)
      | (w, rw, Some (_, rawMessageID, messageID)) =>
          match ReactToMessage (db w) messageID with
          | (d, Err err) =>
              let w := slog LevelError "failed to react to message"
                         [("error", error_text err)] (set_db d w) in
              (w, http_Error rw "something went wrong"
                    StatusInternalServerError)
          | (d, Ok count) =>
              let w := set_db d w in
              let rw := sendJSON rw {| response_Count := count |} in
              let w := go_notifyClients
                         {| Kind := MessageRactionIncreased;
                            RoomID := rawRoomID;
                            Value := Any {| increased_ID := rawMessageID;
                                            increased_Count := count |} |} w in
              (w, rw)
          end
      end
  end.

Definition handleRemoveReactFromMessage (w : World) (rw : ResponseWriter)
  (r : Request) : World * ResponseWriter :=
  match readRoom w rw r with
  | (w, rw, None) => (w, rw)
  | (w, rw, Some (_, rawRoomID, _)) =>
      match readMessage w rw r with
      | (w, rw, None) => (w, rw)
      | (w, rw, Some (_, rawMessageID, messageID)) =>
          match RemoveReactionFromMessage (db w) messageID with
          | (d, Err err) =>
              let w := slog LevelError "failed to remove react from message"
                         [("error", error_text err)] (set_db d w) in
              (w, http_Error rw "something went wrong"
                    StatusInternalServerError)
          | (d, Ok count) =>
              let w := set_db d w in
              let rw := sendJSON rw {| response_Count := count |} in
              let w := go_notifyClients
                         {| Kind := MessageRactionDecreased;
                            RoomID := rawRoomID;
                            Value := Any {| decreased_ID := rawMessageID;
                                            decreased_Count := count |} |} w in
              (w, rw)
          end
      end
  end.

Definition handleMarkMessageAsAnswered (w : World) (rw : ResponseWriter)
  (r : Request) : World * ResponseWriter :=
  match readRoom w rw r with
  | (w, rw, None) => (w, rw)
  | (w, rw, Some (_, rawRoomID, _)) =>
      match readMessage w rw r with
      | (w, rw, None) => (w, rw)
      | (w, rw, Some (_, rawMessageID, messageID)) =>
          match MarkMessageAsAnswered (db w) messageID with
          | (d, Some err) =>
              let w := slog LevelError "failed to mark message as answered"
                         [("error", error_text err)] (set_db d w) in
              (w, http_Error rw "something went wrong"
                    StatusInternalServerError)
          | (d, None) =>
              let w := set_db d w in
              let rw := WriteHeader StatusOK rw in
              let w := go_notifyClients
                         {| Kind := MessageAnswered;
                            RoomID := rawRoomID;
                            Value := Any {| answered_ID := rawMessageID |} |}
                         w in
              (w, rw)
          end
      end
  end.

(** *** Routing *)

Definition ServeHTTP (rt : Route) (w : World) (rw : ResponseWriter)
  (r : Request) : World * ResponseWriter :=
  match rt with
  | GET_subscribe => handleSubscribe w rw r
  | POST_rooms => handleCreateRoom w rw r
  | GET_rooms => handleGetRooms w rw r
  | POST_messages => handleCreateRoomMessage w rw r
  | GET_messages => handleGetRoomMessages w rw r
  | GET_message => handleGetRoomMessage w rw r
  | PATCH_react => handleAddReactToMessage w rw r
  | DELETE_react => handleRemoveReactFromMessage w rw r
  | PATCH_answer => handleMarkMessageAsAnswered w rw r
  end.

(** *** Runs of the process

    One transition is a handler run up to its return or to the point where
    it parks, a parked [handleSubscribe] waking up, a spawned
    [notifyClients] running under the lock, or a move of the environment
    (a request context ending, a transport failing). *)

Inductive Event :=
| EvRequest (rt : Route) (r : Request)
| EvContextDone (s : Subscription)
| EvResume (s : Subscription)
| EvNotify (msg : Message) (order : list (Conn * CancelFunc))
| EvTransportFailure (c : Conn).

Inductive step : World → Event → World → Prop :=
| step_request rt r w :
    step w (EvRequest rt r) (ServeHTTP rt w NewResponseWriter r).1
| step_context_done s w :
    s ∈ waiting w →
    step w (EvContextDone s) (cancel_ctx (sub_cancel s) w)
| step_resume s w :
    s ∈ waiting w →
    sub_cancel s ∈ ctx_done w →
    step w (EvResume s) (handleSubscribe_resume s w)
| step_notify msg order before after w :
    goroutines w = before ++ msg :: after →
    range_visits (default ∅ (subscribers w !! RoomID msg)) order →
    step w (EvNotify msg order)
      (notifyClients order msg (set_goroutines (before ++ after) w))
| step_transport_failure c w :
    step w (EvTransportFailure c) (set_broken ({[c]} ∪ broken w) w).

(** the worlds a process started by [NewHandler d] can be in *)
Inductive reachable (d : DB) : World → Prop :=
| reachable_init : reachable d (NewHandler d)
| reachable_step w ev w' :
    reachable d w → step w ev w' → reachable d w'.

(** [w'] is [w] or comes after it *)
Inductive later (w : World) : World → Prop :=
| later_refl : later w w
| later_step w1 ev w2 : later w w1 → step w1 ev w2 → later w w2.

(** What a run leaves alone unless it registers, deregisters, writes or
    cancels: the registry, the contexts, the transports and the parked
    handlers. *)
Definition same_hub (w w' : World) : Prop :=
  subscribers w' = subscribers w ∧ ctx_done w' = ctx_done w ∧
  broken w' = broken w ∧ wire w' = wire w ∧ waiting w' = waiting w ∧
  next_conn w' = next_conn w ∧ next_ctx w' = next_ctx w.

(** The registry and the parked [handleSubscribe] calls agree: every
    registered connection belongs to a parked call of that room, every
    parked call is registered, and no connection object is used twice. *)
Record registry_inv (w : World) : Prop := {
  inv_parked : ∀ room set c cancel,
    subscribers w !! room = Some set → set !! c = Some cancel →
    {| sub_room := room; sub_conn := c; sub_cancel := cancel |} ∈ waiting w;
  inv_registered : ∀ s, s ∈ waiting w →
    ∃ set, subscribers w !! sub_room s = Some set ∧
           set !! sub_conn s = Some (sub_cancel s);
  inv_allocated : ∀ s, s ∈ waiting w → (sub_conn s < next_conn w)%positive;
  inv_distinct : NoDup (sub_conn <$> waiting w)
}.

(** [c] is registered under no room, and its connection object has
    already been handed out *)
Definition unregistered (c : Conn) (w : World) : Prop :=
  (c < next_conn w)%positive ∧
  ∀ room set, subscribers w !! room = Some set → set !! c = None.

(** the [WriteJSON] calls made on connection [c] *)
Definition writes_to (c : Conn) (l : list (Conn * result json))
  : list (result json) :=
  (filter (λ x, x.1 = c) l).*2.

End Model.

(** ** The store calls of a request that fail

    [store_failed w r rt text err]: serving the request [r] on route [rt]
    in state [w], the handler gets as far as a store call that returns the
    error [err], for which it logs [text]. The calls are those of the
    handlers, in their order; [pgx.ErrNoRows] from [GetRoom] and
    [GetMessage] is a client error and is not among them. *)

Section StoreFailures.
Context `{Pgstore}.

Inductive store_failed (w : World) (r : Request)
  : Route → string → error → Prop :=
| failed_GetRoom rt id err :
    uses_room rt = true →
    uuid_Parse (URLParam r "room_id") = Ok id →
    GetRoom (db w) id = Err err →
    is_ErrNoRows err = false →
    store_failed w r rt "failed to get room" err
| failed_GetMessage rt id room mid err :
    uses_message rt = true →
    uuid_Parse (URLParam r "room_id") = Ok id →
    GetRoom (db w) id = Ok room →
    uuid_Parse (URLParam r "message_id") = Ok mid →
    GetMessage (db w) mid = Err err →
    is_ErrNoRows err = false →
    store_failed w r rt "failed to get message" err
| failed_InsertRoom theme d err :
    json_decode_field "theme" (ReqBody r) = Ok theme →
    InsertRoom (db w) theme = (d, Err err) →
    store_failed w r POST_rooms "failed to insert room" err
| failed_GetRooms err :
    GetRooms (db w) = Err err →
    store_failed w r GET_rooms "failed to get rooms" err
| failed_InsertMessage id room text d err :
    uuid_Parse (URLParam r "room_id") = Ok id →
    GetRoom (db w) id = Ok room →
    json_decode_field "message" (ReqBody r) = Ok text →
    InsertMessage (db w) id text = (d, Err err) →
    store_failed w r POST_messages "failed to insert message" err
| failed_GetRoomMessages id room err :
    uuid_Parse (URLParam r "room_id") = Ok id →
    GetRoom (db w) id = Ok room →
    GetRoomMessages (db w) id = Err err →
    store_failed w r GET_messages "failed to get room messages" err
| failed_ReactToMessage id room mid message d err :
    uuid_Parse (URLParam r "room_id") = Ok id →
    GetRoom (db w) id = Ok room →
    uuid_Parse (URLParam r "message_id") = Ok mid →
    GetMessage (db w) mid = Ok message →
    ReactToMessage (db w) mid = (d, Err err) →
    store_failed w r PATCH_react "failed to react to message" err
| failed_RemoveReactionFromMessage id room mid message d err :
    uuid_Parse (URLParam r "room_id") = Ok id →
    GetRoom (db w) id = Ok room →
    uuid_Parse (URLParam r "message_id") = Ok mid →
    GetMessage (db w) mid = Ok message →
    RemoveReactionFromMessage (db w) mid = (d, Err err) →
    store_failed w r DELETE_react "failed to remove react from message" err
| failed_MarkMessageAsAnswered id room mid message d err :
    uuid_Parse (URLParam r "room_id") = Ok id →
    GetRoom (db w) id = Ok room →
    uuid_Parse (URLParam r "message_id") = Ok mid →
    GetMessage (db w) mid = Ok message →
    MarkMessageAsAnswered (db w) mid = (d, Some err) →
    store_failed w r PATCH_answer "failed to mark message as answered" err.

End StoreFailures.

(** ** A small implementation of the interfaces, for concrete runs *)

Definition quote_mark : string := String "034"%char EmptyString.

Definition demo_libs : Libs := {|
  json_quote s := quote_mark +:+ s +:+ quote_mark;
  json_decode_field _ body := if decide (body = "") then Err (ErrorString "EOF") else Ok body;
  UUID := string;
  uuid_Parse s := if decide (s = "") then Err (ErrorString "invalid UUID length: 0") else Ok s;
  uuid_String s := s;
  ws_Upgrade rw r :=
    if decide (RemoteAddr r = "") then
      (http_Error rw "Bad Request" StatusBadRequest,
       Some (ErrorString "websocket: the client is not using the websocket protocol"))
    else (rw, None)
|}.

Definition int64_1 : int64 := Int64 1 eq_refl.
Definition int64_0 : int64 := Int64 0 eq_refl.

Definition demo_GetRoom (d : list string) (id : string) : result string :=
  if decide (id ∈ d) then Ok id else Err ErrNoRows.

Definition demo_GetRooms (d : list string) : result (slice string) :=
  match d with
  | [] => Ok nil_slice
  | _ :: _ => Ok (Slice d)
  end.

(** The store holds the room names; every message id is known. *)
Definition demo_store : @Pgstore demo_libs :=
  @Build_Pgstore demo_libs (list string) string string
    string_Marshaler string_Marshaler
    demo_GetRoom
    demo_GetRooms
    (λ d id, Ok id)
    (λ d id, Ok nil_slice)
    (λ d theme, (d ++ [theme], Ok theme))
    (λ d room text, (d, Ok "m1"))
    (λ d id, (d, Ok int64_1))
    (λ d id, (d, Ok int64_0))
    (λ d id, (d, None)).

Definition demo_request (room addr : string) : Request :=
  {| URLParams := {[ "room_id" := room; "message_id" := "m1" ]};
     ReqBody := "hi"; RemoteAddr := addr |}.

(** A Go value that [encoding/json] refuses: a channel. *)
Inductive chan := Chan.

Definition chan_Marshaler : Marshaler chan :=
  λ _, Err (ErrorString "json: unsupported type: chan int").

(** *** A concrete run: A and B subscribe to r1, C to r2 *)

Definition demo_db : @DB demo_libs demo_store := ["r1"; "r2"].

Definition demo_serve (rt : Route) (room addr : string)
  (w : @World demo_libs demo_store) : @World demo_libs demo_store :=
  (ServeHTTP rt w NewResponseWriter (demo_request room addr)).1.

Definition demo_start : @World demo_libs demo_store :=
  @NewHandler demo_libs demo_store demo_db.

Definition demo_A : Subscription :=
  {| sub_room := "r1"; sub_conn := 1; sub_cancel := 1 |}.
Definition demo_B : Subscription :=
  {| sub_room := "r1"; sub_conn := 2; sub_cancel := 2 |}.
Definition demo_C : Subscription :=
  {| sub_room := "r2"; sub_conn := 3; sub_cancel := 3 |}.

Definition demo_subscribed : @World demo_libs demo_store :=
  demo_serve GET_subscribe "r2" "10.0.0.3"
    (demo_serve GET_subscribe "r1" "10.0.0.2"
       (demo_serve GET_subscribe "r1" "10.0.0.1" demo_start)).

(** [message_created{id: m1, message: hi}] for room r1 *)
Definition demo_msg : Message :=
  {| Kind := MessageCreated;
     Value := Any {| created_ID := "m1"; created_Message := "hi" |};
     RoomID := "r1" |}.

Definition demo_frame : json :=
  JObject [("kind", JString "message_created");
           ("value", JObject [("id", JString "m1");
                              ("message", JString "hi")])].

(** the set of r1 once A and B have subscribed *)
Definition demo_r1 : gmap Conn CancelFunc :=
  {[ 1%positive := 1%positive; 2%positive := 2%positive ]}.

(** B before A: one of the two orders the loop can take over r1 *)
Definition demo_order : list (Conn * CancelFunc) := [(2, 2); (1, 1)]%positive.

(** then A's transport fails *)
Definition demo_A_broken : @World demo_libs demo_store :=
  set_broken ({[1%positive]} ∪ broken demo_subscribed) demo_subscribed.

(** two messages are posted to r1, which queues two publishes *)
Definition demo_posted : @World demo_libs demo_store :=
  demo_serve POST_messages "r1" "10.0.0.9"
    (demo_serve POST_messages "r1" "10.0.0.9" demo_A_broken).

(** the first publish runs: the write to A fails and A is cancelled *)
Definition demo_first : @World demo_libs demo_store :=
  notifyClients demo_order demo_msg
    (set_goroutines ([] ++ [demo_msg]) demo_posted).

(** the second publish runs before A's handler has woken up *)
Definition demo_second : @World demo_libs demo_store :=
  notifyClients demo_order demo_msg
    (set_goroutines ([] ++ []) demo_first).

(** A's handler wakes up and deregisters *)
Definition demo_A_left : @World demo_libs demo_store :=
  handleSubscribe_resume demo_A demo_second.

(** a third message is posted to r1 and published: B is alone in r1 *)
Definition demo_order_B : list (Conn * CancelFunc) := [(2, 2)]%positive.

Definition demo_reposted : @World demo_libs demo_store :=
  demo_serve POST_messages "r1" "10.0.0.9" demo_A_left.

Definition demo_third : @World demo_libs demo_store :=
  notifyClients demo_order_B demo_msg
    (set_goroutines ([] ++ []) demo_reposted).

(** a store without rooms, and a request for a room it does not have *)
Definition demo_empty : @World demo_libs demo_store :=
  @NewHandler demo_libs demo_store [].

Definition demo_unknown_room : Request := demo_request "r9" "10.0.0.1".

(** an event whose value has no encoding, for room r1 *)
Definition demo_chan_event : Message :=
  {| Kind := "chan"; Value := @Any chan chan_Marshaler Chan; RoomID := "r1" |}.

(** the other order over r1 *)
Definition demo_order' : list (Conn * CancelFunc) := [(1, 1); (2, 2)]%positive.

(** a fourth client, D, asks to subscribe to r2; an event for r2 *)
Definition demo_request_D : Request := demo_request "r2" "10.0.0.4".

Definition demo_msg_r2 : Message :=
  {| Kind := MessageAnswered; Value := Any {| answered_ID := "m1" |};
     RoomID := "r2" |}.

Definition demo_order_r2 : list (Conn * CancelFunc) :=
  [(3, 3); (4, 4)]%positive.

(** a client that does not speak the websocket protocol *)
Definition demo_request_plain : Request := demo_request "r1" "".

(** A store that is down: every query fails. *)
Definition demo_down : error := ErrorString "connection refused".

Definition demo_down_store : @Pgstore demo_libs :=
  @Build_Pgstore demo_libs unit string string
    string_Marshaler string_Marshaler
    (λ d id, Err demo_down)
    (λ d, Err demo_down)
    (λ d id, Err demo_down)
    (λ d id, Err demo_down)
    (λ d theme, (d, Err demo_down))
    (λ d room text, (d, Err demo_down))
    (λ d id, (d, Err demo_down))
    (λ d id, (d, Err demo_down))
    (λ d id, (d, Some demo_down)).

Definition demo_down_start : @World demo_libs demo_down_store :=
  @NewHandler demo_libs demo_down_store ().

(** *** A second implementation, with real room and message identifiers *)

Definition is_hex (a : ascii) : bool :=
  let n := nat_of_ascii a in
  ((48 <=? n) && (n <=? 57)) || ((97 <=? n) && (n <=? 102))
  || ((65 <=? n) && (n <=? 70)).

Definition lower (a : ascii) : ascii :=
  let n := nat_of_ascii a in
  if (65 <=? n) && (n <=? 90) then ascii_of_nat (n + 32) else a.

Fixpoint lowercase (s : string) : string :=
  match s with
  | EmptyString => EmptyString
  | String a rest => String (lower a) (lowercase rest)
  end.

(** 36 characters, hyphens at 8, 13, 18 and 23, hexadecimal digits
    elsewhere *)
Fixpoint canonical_from (i : nat) (s : string) : bool :=
  match s with
  | EmptyString => i =? 36
  | String a rest =>
      (if (i =? 8) || (i =? 13) || (i =? 18) || (i =? 23)
       then bool_decide (a = "-"%char) else is_hex a)
      && canonical_from (S i) rest
  end.

(** Its [uuid_Parse] takes the canonical form of an identifier and gives
    it back in lower case, as [UUID.String] prints it. (The library also
    takes the urn, the braced and the 32-digit forms.) *)
Definition uuid_libs : Libs := {|
  json_quote s := quote_mark +:+ s +:+ quote_mark;
  json_decode_field _ body :=
    if decide (body = "") then Err (ErrorString "EOF") else Ok body;
  UUID := string;
  uuid_Parse s :=
    if canonical_from 0 s then Ok (lowercase s)
    else Err (ErrorString "invalid UUID format");
  uuid_String s := s;
  ws_Upgrade rw r :=
    if decide (RemoteAddr r = "") then
      (http_Error rw "Bad Request" StatusBadRequest,
       Some (ErrorString "websocket: the client is not using the websocket protocol"))
    else (rw, None)
|}.

Definition uuid_room : string := "6ba7b810-9dad-11d1-80b4-00c04fd430c8".
Definition uuid_message : string := "6ba7b811-9dad-11d1-80b4-00c04fd430c8".

(** The store holds the room identifiers; every message is known and has
    one reaction after [ReactToMessage]. *)
Definition uuid_store : @Pgstore uuid_libs :=
  @Build_Pgstore uuid_libs (list string) string string
    string_Marshaler string_Marshaler
    demo_GetRoom
    demo_GetRooms
    (λ d id, Ok id)
    (λ d id, Ok nil_slice)
    (λ d theme, (d ++ [uuid_room], Ok uuid_room))
    (λ d room text, (d, Ok uuid_message))
    (λ d id, (d, Ok int64_1))
    (λ d id, (d, Ok int64_0))
    (λ d id, (d, None)).

Definition uuid_request (addr : string) : Request :=
  {| URLParams := {[ "room_id" := uuid_room; "message_id" := uuid_message ]};
     ReqBody := ""; RemoteAddr := addr |}.

(** one client has subscribed to the room, and its transport has failed *)
Definition uuid_subscribed : @World uuid_libs uuid_store :=
  set_broken {[1%positive]}
    (handleSubscribe (@NewHandler uuid_libs uuid_store [uuid_room])
       NewResponseWriter (uuid_request "10.0.0.1")).1.

(** [message_reaction_increased{id, count: 1}] for the room *)
Definition uuid_event : Message :=
  {| Kind := MessageRactionIncreased;
     RoomID := uuid_room;
     Value := Any {| increased_ID := uuid_message;
                     increased_Count := int64_1 |} |}.

(** * Properties *)

Section Broadcast.
Context `{Pgstore}.
Implicit Types (w : World) (msg : Message) (c conn : Conn).
Implicit Types (order : list (Conn * CancelFunc)).
Implicit Types (set : gmap Conn CancelFunc).

(** ** One pass of the loop *)

Lemma notify_one_frame msg conn cancel w :
  let w' := notify_one msg conn cancel w in
  db w' = db w ∧ subscribers w' = subscribers w ∧ broken w' = broken w ∧
  goroutines w' = goroutines w ∧ waiting w' = waiting w ∧
  next_conn w' = next_conn w ∧ next_ctx w' = next_ctx w.
Proof.
  unfold notify_one, WriteJSON.
  destruct (write_outcome (broken w) conn msg); simpl; done.
Qed.

Lemma notify_one_wire msg conn cancel w :
  wire (notify_one msg conn cancel w)
  = wire w ++ [(conn, write_outcome (broken w) conn msg)].
Proof.
  unfold notify_one, WriteJSON.
  destruct (write_outcome (broken w) conn msg); reflexivity.
Qed.

Lemma notify_one_ok msg conn cancel w j :
  write_outcome (broken w) conn msg = Ok j →
  ctx_done (notify_one msg conn cancel w) = ctx_done w ∧
  logs (notify_one msg conn cancel w) = logs w.
Proof. intros Hj. unfold notify_one, WriteJSON. rewrite Hj. done. Qed.

Lemma notify_one_err msg conn cancel w e :
  write_outcome (broken w) conn msg = Err e →
  ctx_done (notify_one msg conn cancel w) = {[cancel]} ∪ ctx_done w ∧
  logs (notify_one msg conn cancel w) = logs w ++ [failure_log e].
Proof. intros He. unfold notify_one, WriteJSON. rewrite He. done. Qed.

(** ** The whole loop, for any order *)

Lemma range_subscribers_frame msg order w :
  let w' := range_subscribers msg order w in
  db w' = db w ∧ subscribers w' = subscribers w ∧ broken w' = broken w ∧
  goroutines w' = goroutines w ∧ waiting w' = waiting w ∧
  next_conn w' = next_conn w ∧ next_ctx w' = next_ctx w.
Proof.
  revert w. induction order as [|[conn cancel] rest IH]; intros w; simpl.
  - done.
  - destruct (IH (notify_one msg conn cancel w)) as (-> & -> & -> & -> & -> & -> & ->).
    apply notify_one_frame.
Qed.

Lemma range_subscribers_wire msg order w :
  wire (range_subscribers msg order w)
  = wire w ++ ((λ x, (x.1, write_outcome (broken w) x.1 msg)) <$> order).
Proof.
  revert w. induction order as [|[conn cancel] rest IH]; intros w; simpl.
  - by rewrite app_nil_r.
  - rewrite IH, notify_one_wire.
    destruct (notify_one_frame msg conn cancel w) as (_ & _ & -> & _).
    by rewrite <- app_assoc.
Qed.

(** who is cancelled by the loop: the subscribers whose write failed, and
    nobody else *)
Lemma range_subscribers_ctx_done msg order w k :
  k ∈ ctx_done (range_subscribers msg order w) ↔
  k ∈ ctx_done w ∨
  ∃ conn e, (conn, k) ∈ order ∧ write_outcome (broken w) conn msg = Err e.
Proof.
  revert w. induction order as [|[conn cancel] rest IH]; intros w; simpl.
  - split; [by left|]. intros [?|(? & ? & ?%elem_of_nil & _)]; done.
  - rewrite IH. destruct (notify_one_frame msg conn cancel w) as (_ & _ & -> & _).
    destruct (write_outcome (broken w) conn msg) as [j|e] eqn:Ho.
    + rewrite (proj1 (notify_one_ok _ _ cancel _ _ Ho)). split.
      * intros [?|(c & e & Hin & He)]; [by left|].
        right. exists c, e. split; [by apply list_elem_of_further|done].
      * intros [?|(c & e & Hin & He)]; [by left|].
        apply elem_of_cons in Hin as [[= -> ->]|Hin]; [congruence|].
        right. by exists c, e.
    + rewrite (proj1 (notify_one_err _ _ cancel _ _ Ho)).
      rewrite elem_of_union, elem_of_singleton. split.
      * intros [[->|?]|(c & e' & Hin & He)]; [|by left|].
        -- right. exists conn, e. split; [apply list_elem_of_here|done].
        -- right. exists c, e'. split; [by apply list_elem_of_further|done].
      * intros [?|(c & e' & Hin & He)]; [by left; right|].
        apply elem_of_cons in Hin as [[= -> ->]|Hin]; [by left; left|].
        right. by exists c, e'.
Qed.

(** what the loop logs: one line for each failed write, and nothing else *)
Lemma range_subscribers_logs msg order w :
  logs (range_subscribers msg order w)
  = logs w ++ omap (λ x, match write_outcome (broken w) x.1 msg with
                         | Err e => Some (failure_log e)
                         | Ok _ => None
                         end) order.
Proof.
  revert w. induction order as [|[conn cancel] rest IH]; intros w; simpl.
  - by rewrite app_nil_r.
  - rewrite IH. destruct (notify_one_frame msg conn cancel w) as (_ & _ & -> & _).
    destruct (write_outcome (broken w) conn msg) as [j|e] eqn:Ho.
    + by rewrite (proj2 (notify_one_ok _ _ cancel _ _ Ho)).
    + rewrite (proj2 (notify_one_err _ _ cancel _ _ Ho)).
      by rewrite <- app_assoc.
Qed.

(** ** The calls made on one connection *)

Lemma writes_to_app c (l1 l2 : list (Conn * result json)) :
  writes_to c (l1 ++ l2) = writes_to c l1 ++ writes_to c l2.
Proof. unfold writes_to. by rewrite filter_app, fmap_app. Qed.

Lemma writes_to_outcomes c (f : Conn → result json) order :
  writes_to c ((λ x, (x.1, f x.1)) <$> order)
  = (λ _, f c) <$> filter (λ x, x.1 = c) order.
Proof.
  unfold writes_to. induction order as [|[conn cancel] rest IH]; [done|].
  rewrite fmap_cons, !filter_cons. cbn [fst].
  destruct (decide (conn = c)) as [->|]; [|exact IH].
  rewrite !fmap_cons. cbn [snd]. f_equal. exact IH.
Qed.

Lemma filter_key_absent c order :
  c ∉ order.*1 → filter (λ x, x.1 = c) order = [].
Proof.
  induction order as [|[conn cancel] rest IH]; [done|].
  rewrite fmap_cons, not_elem_of_cons, filter_cons. simpl. intros [Hne Hrest].
  destruct (decide (conn = c)); [congruence|]. by apply IH.
Qed.

Lemma filter_key_NoDup c order :
  NoDup order.*1 →
  filter (λ x, x.1 = c) order
  = match (list_to_map order : gmap Conn CancelFunc) !! c with
    | Some cancel => [(c, cancel)]
    | None => []
    end.
Proof.
  induction order as [|[conn cancel] rest IH]; [done|].
  rewrite fmap_cons, NoDup_cons, filter_cons. simpl. intros [Hfresh Hnd].
  destruct (decide (conn = c)) as [->|Hne].
  - by rewrite lookup_insert_eq, filter_key_absent.
  - rewrite lookup_insert_ne by done. by apply IH.
Qed.

Lemma range_visits_filter set order c :
  range_visits set order →
  filter (λ x, x.1 = c) order
  = match set !! c with
    | Some cancel => [(c, cancel)]
    | None => []
    end.
Proof.
  unfold range_visits. intros Hperm.
  assert (NoDup order.*1) as Hnd.
  { rewrite Hperm. apply NoDup_fst_map_to_list. }
  rewrite (filter_key_NoDup c order Hnd).
  replace (list_to_map order : gmap Conn CancelFunc) with set; [done|].
  rewrite <- (list_to_map_to_list set). symmetry.
  apply list_to_map_proper; [done|done].
Qed.

Lemma range_visits_elem set order c cancel :
  range_visits set order → ((c, cancel) ∈ order ↔ set !! c = Some cancel).
Proof.
  unfold range_visits. intros ->. apply elem_of_map_to_list.
Qed.

Lemma range_visits_empty order : range_visits ∅ order → order = [].
Proof.
  unfold range_visits. rewrite map_to_list_empty. apply Permutation_nil_r.
Qed.

End Broadcast.

(** ** What the handlers leave alone *)

Section Handlers.
Context `{Pgstore}.
Implicit Types (w : World) (rw : ResponseWriter) (r : Request).

(** case analysis on the calls a handler branches on, innermost first *)
Local Ltac handler_case :=
  match goal with
  | |- context [match ?x with _ => _ end] =>
      lazymatch x with
      | context [match _ with _ => _ end] => fail
      | _ => destruct x eqn:?; cbn beta iota zeta
      end
  end.
Local Ltac handler_cases := cbn beta iota zeta; repeat handler_case.

Lemma same_hub_refl w : same_hub w w.
Proof. by repeat split. Qed.

Lemma same_hub_trans w1 w2 w3 : same_hub w1 w2 → same_hub w2 w3 → same_hub w1 w3.
Proof.
  intros (?&?&?&?&?&?&?) (?&?&?&?&?&?&?). repeat split; congruence.
Qed.

Lemma ServeHTTP_same_hub rt w rw r :
  rt ≠ GET_subscribe → same_hub w (ServeHTTP rt w rw r).1.
Proof.
  intros Hrt. destruct rt; [done|..]; clear Hrt; unfold ServeHTTP;
    unfold handleCreateRoom, handleGetRooms, handleCreateRoomMessage,
      handleGetRoomMessages, handleGetRoomMessage, handleAddReactToMessage,
      handleRemoveReactFromMessage, handleMarkMessageAsAnswered,
      readRoom, readMessage;
    handler_cases; by repeat split.
Qed.

(** the three ways [handleSubscribe] can go *)
Lemma handleSubscribe_cases w rw r :
  let w' := (handleSubscribe w rw r).1 in
  (same_hub w w' ∧ goroutines w' = goroutines w ∧ db w' = db w) ∨
  (∃ room id,
      readRoom w rw r = (w, rw, Some (room, URLParam r "room_id", id)) ∧
      (ws_Upgrade rw r).2 = None ∧
      subscribers w'
      = register (URLParam r "room_id") (next_conn w) (next_ctx w)
          (subscribers w) ∧
      waiting w'
      = waiting w ++ [{| sub_room := URLParam r "room_id";
                         sub_conn := next_conn w;
                         sub_cancel := next_ctx w |}] ∧
      next_conn w' = Pos.succ (next_conn w) ∧
      next_ctx w' = Pos.succ (next_ctx w) ∧
      ctx_done w' = ctx_done w ∧ broken w' = broken w ∧ wire w' = wire w ∧
      goroutines w' = goroutines w ∧ db w' = db w).
Proof.
  unfold handleSubscribe, readRoom. handler_cases;
    try (left; by repeat split).
  right. eexists _, _. by repeat split.
Qed.

(** *** Response writers *)

Lemma append_empty_r (s : string) : s +:+ "" = s.
Proof.
  induction s as [|a s IH]; [done|].
  change (String a (s +:+ "") = String a s). by rewrite IH.
Qed.

Lemma Status_Write data rw :
  Status (Write data rw) = Some (default StatusOK (Status rw)).
Proof.
  unfold Write, WriteHeader.
  destruct (Status rw) as [code|] eqn:Hcode; simpl; by rewrite ?Hcode.
Qed.

Lemma Status_http_Error rw text code :
  Status rw = None → Status (http_Error rw text code) = Some code.
Proof.
  intros Hnone. unfold http_Error. rewrite Status_Write.
  unfold WriteHeader. simpl. by rewrite Hnone.
Qed.

Lemma Status_sendJSON {A} `{Marshaler A} rw (v : A) :
  Status (sendJSON rw v) = Some (default StatusOK (Status rw)).
Proof.
  unfold sendJSON. destruct (json_Marshal v) as [data err].
  by rewrite Status_Write.
Qed.

(** *** What a handler spawns and answers *)

(** a handler spawns nothing, or one publish of an event it built for the
    room of the request; the second happens exactly when a producer
    answers with status 200 *)
Lemma ServeHTTP_spawns rt w r :
  let w' := (ServeHTTP rt w NewResponseWriter r).1 in
  let rw' := (ServeHTTP rt w NewResponseWriter r).2 in
  (goroutines w' = goroutines w ∧
   (is_producer rt = true → Status rw' ≠ Some StatusOK)) ∨
  (∃ msg, goroutines w' = goroutines w ++ [msg] ∧ produced msg ∧
          RoomID msg = URLParam r "room_id" ∧
          is_producer rt = true ∧ Status rw' = Some StatusOK).
Proof.
  destruct rt; unfold ServeHTTP;
    unfold handleSubscribe, handleCreateRoom, handleGetRooms,
      handleCreateRoomMessage, handleGetRoomMessages, handleGetRoomMessage,
      handleAddReactToMessage, handleRemoveReactFromMessage,
      handleMarkMessageAsAnswered, readRoom, readMessage;
    handler_cases;
    try (left; split; [done|]; first [done | intros _;
           by rewrite Status_http_Error]);
    right; eexists; (split; [done|]); (split; [constructor|]);
    (split; [done|]); (split; [done|]);
    first [by rewrite Status_sendJSON | done].
Qed.

(** the answer of a handler depends on the store only: not on the
    registry, the transports or the publishes still pending *)
Lemma ServeHTTP_response_of_store rt w1 w2 rw r :
  db w1 = db w2 → (ServeHTTP rt w1 rw r).2 = (ServeHTTP rt w2 rw r).2.
Proof.
  intros Hdb.
  destruct rt; unfold ServeHTTP;
    unfold handleSubscribe, handleCreateRoom, handleGetRooms,
      handleCreateRoomMessage, handleGetRoomMessages, handleGetRoomMessage,
      handleAddReactToMessage, handleRemoveReactFromMessage,
      handleMarkMessageAsAnswered, readRoom, readMessage;
    simpl; rewrite ?Hdb;
    repeat (match goal with
            | |- context [match ?x with _ => _ end] =>
                lazymatch x with
                | context [match _ with _ => _ end] => fail
                | _ => destruct x eqn:?
                end
            end; simpl; rewrite ?Hdb);
    done.
Qed.

End Handlers.

(** ** The registry *)

Section Registry.
Implicit Types (subs : gmap string (gmap Conn CancelFunc)).
Implicit Types (room : string) (c : Conn) (cancel : CancelFunc).

Lemma lookup_ensure_room room room' subs :
  ensure_room room subs !! room'
  = if decide (room = room') then Some (default ∅ (subs !! room))
    else subs !! room'.
Proof.
  unfold ensure_room. destruct (subs !! room) as [set|] eqn:Hroom.
  - case_decide; by subst.
  - rewrite lookup_insert. by case_decide.
Qed.

Lemma lookup_register room c cancel room' subs :
  register room c cancel subs !! room'
  = if decide (room = room')
    then Some (<[c := cancel]> (default ∅ (subs !! room)))
    else subs !! room'.
Proof.
  unfold register, insert_subscriber.
  rewrite (lookup_ensure_room room room), decide_True by done.
  rewrite lookup_insert. case_decide; [done|].
  rewrite lookup_ensure_room. by rewrite decide_False.
Qed.

Lemma lookup_deregister room c room' subs :
  deregister room c subs !! room'
  = if decide (room = room') then delete c <$> subs !! room
    else subs !! room'.
Proof.
  unfold deregister. destruct (subs !! room) as [set|] eqn:Hroom.
  - rewrite lookup_insert. by case_decide.
  - case_decide; by subst.
Qed.

End Registry.

(** ** The registry and the parked handlers agree in every run *)

Section Lifecycle.
Context `{Pgstore}.
Implicit Types (w : World) (s : Subscription).

Lemma sub_conn_inj_on (l : list Subscription) s1 s2 :
  NoDup (sub_conn <$> l) → s1 ∈ l → s2 ∈ l →
  sub_conn s1 = sub_conn s2 → s1 = s2.
Proof.
  induction l as [|s l IH]; [by intros _ ?%elem_of_nil|].
  rewrite fmap_cons, NoDup_cons. intros [Hfresh Hnd].
  rewrite !elem_of_cons. intros [->|H1] [->|H2] Heq; [done|..].
  - destruct Hfresh. rewrite Heq. by apply list_elem_of_fmap_2.
  - destruct Hfresh. rewrite <- Heq. by apply list_elem_of_fmap_2.
  - by apply IH.
Qed.

Lemma registry_inv_init d : registry_inv (NewHandler d).
Proof.
  split; simpl.
  - intros room set c cancel Hroom. by rewrite lookup_empty in Hroom.
  - by intros s ?%elem_of_nil.
  - by intros s ?%elem_of_nil.
  - constructor.
Qed.

Lemma registry_inv_same_hub w w' :
  same_hub w w' → registry_inv w → registry_inv w'.
Proof.
  intros (Hs & _ & _ & _ & Hw & Hn & _) [H1 H2 H3 H4].
  split; rewrite ?Hs, ?Hw, ?Hn; done.
Qed.

Lemma registry_inv_subscribe w w' room :
  registry_inv w →
  subscribers w'
  = register room (next_conn w) (next_ctx w) (subscribers w) →
  waiting w'
  = waiting w ++ [{| sub_room := room; sub_conn := next_conn w;
                     sub_cancel := next_ctx w |}] →
  next_conn w' = Pos.succ (next_conn w) →
  registry_inv w'.
Proof.
  intros [Hparked Hreg Halloc Hnd] Hs Hw Hn.
  split; rewrite ?Hs, ?Hw, ?Hn.
  - intros room' set c cancel. rewrite lookup_register, elem_of_app.
    case_decide as Hroom; [subst room'|by eauto].
    intros [= <-]. rewrite lookup_insert. case_decide as Hc.
    + intros [= <-]. subst c. right. by apply list_elem_of_singleton.
    + destruct (subscribers w !! room) as [set|] eqn:Hset; simpl.
      * left. by eapply Hparked.
      * by rewrite lookup_empty.
  - intros s. rewrite elem_of_app, list_elem_of_singleton.
    rewrite lookup_register. intros [Hs'| ->].
    + destruct (Hreg s Hs') as (set & Hset & Hc).
      case_decide as Hroom; [|by eauto].
      eexists; split; [done|]. rewrite Hroom, Hset. simpl.
      rewrite lookup_insert_ne; [done|].
      specialize (Halloc s Hs'). lia.
    + simpl. rewrite decide_True by done. eexists; split; [done|].
      apply lookup_insert_eq.
  - intros s. rewrite elem_of_app, list_elem_of_singleton. intros [Hs'| ->].
    + specialize (Halloc s Hs'). lia.
    + simpl. lia.
  - rewrite fmap_app. apply NoDup_app. split_and!; [done| |apply NoDup_singleton].
    intros c (s & -> & Hs')%list_elem_of_fmap. simpl.
    rewrite list_elem_of_singleton. specialize (Halloc s Hs'). lia.
Qed.

Lemma registry_inv_resume w s :
  registry_inv w → s ∈ waiting w → registry_inv (handleSubscribe_resume s w).
Proof.
  intros [Hparked Hreg Halloc Hnd] Hs. unfold handleSubscribe_resume.
  split; simpl.
  - intros room set c cancel. rewrite lookup_deregister, list_elem_of_filter.
    case_decide as Hroom.
    + subst room. destruct (subscribers w !! sub_room s) as [set'|] eqn:Hset;
        [|done]. simpl. intros [= <-]. rewrite lookup_delete.
      case_decide; [done|]. intros Hc. split; [|by eapply Hparked].
      intros Heq. apply (f_equal sub_conn) in Heq. simpl in Heq. congruence.
    + intros Hset Hc. split; [|by eapply Hparked].
      intros Heq. apply (f_equal sub_room) in Heq. simpl in Heq. congruence.
  - intros s'. rewrite list_elem_of_filter, lookup_deregister.
    intros [Hne Hs']. destruct (Hreg s' Hs') as (set & Hset & Hc).
    case_decide as Hroom; [|by eauto].
    rewrite Hroom, Hset. simpl. eexists; split; [done|].
    rewrite lookup_delete_ne; [done|].
    intros Heq. by apply Hne, (sub_conn_inj_on (waiting w)).
  - intros s'. rewrite list_elem_of_filter. intros [_ Hs']. by apply Halloc.
  - eapply sublist_NoDup; [exact Hnd|].
    apply fmap_sublist, sublist_filter.
Qed.

Lemma notifyClients_frame order msg w :
  let w' := notifyClients order msg w in
  db w' = db w ∧ subscribers w' = subscribers w ∧ broken w' = broken w ∧
  goroutines w' = goroutines w ∧ waiting w' = waiting w ∧
  next_conn w' = next_conn w ∧ next_ctx w' = next_ctx w.
Proof.
  unfold notifyClients. destruct (subscribers w !! RoomID msg); [|done].
  case_decide; [done|]. apply range_subscribers_frame.
Qed.

Lemma registry_inv_step w ev w' :
  registry_inv w → step w ev w' → registry_inv w'.
Proof.
  intros Hinv Hstep. destruct Hstep as [rt r w| s w Hs| s w Hs Hdone
    | msg order before after w Hgo Horder| c w].
  - destruct (decide (rt = GET_subscribe)) as [->|Hrt].
    + simpl. destruct (handleSubscribe_cases w NewResponseWriter r)
        as [(Hhub & _)|(room & id & _ & _ & Hs & Hw & Hn & _)].
      * by eapply registry_inv_same_hub.
      * by eapply registry_inv_subscribe.
    + eapply registry_inv_same_hub; [|done]. by apply ServeHTTP_same_hub.
  - by destruct Hinv.
  - by apply registry_inv_resume.
  - destruct (notifyClients_frame order msg
               (set_goroutines (before ++ after) w))
      as (_ & Hs & _ & _ & Hw & Hn & _).
    destruct Hinv as [H1 H2 H3 H4]. split; rewrite ?Hs, ?Hw, ?Hn; done.
  - by destruct Hinv.
Qed.

Lemma reachable_registry_inv d w : reachable d w → registry_inv w.
Proof.
  induction 1 as [|w ev w' _ IH Hstep].
  - apply registry_inv_init.
  - by eapply registry_inv_step.
Qed.

(** in a run, a connection is registered under one room only *)
Lemma registry_inv_one_room w room room' set set' c :
  registry_inv w →
  subscribers w !! room = Some set → subscribers w !! room' = Some set' →
  is_Some (set !! c) → is_Some (set' !! c) → room = room'.
Proof.
  intros [Hparked _ _ Hnd] Hset Hset' [cancel Hc] [cancel' Hc'].
  pose proof (Hparked _ _ _ _ Hset Hc) as H1.
  pose proof (Hparked _ _ _ _ Hset' Hc') as H2.
  by pose proof (sub_conn_inj_on _ _ _ Hnd H1 H2 eq_refl) as [= -> _].
Qed.

End Lifecycle.

(** ** Publishing *)

Section Publish.
Context `{Pgstore}.
Implicit Types (w : World) (msg : Message) (c : Conn).
Implicit Types (order : list (Conn * CancelFunc)).
Implicit Types (set : gmap Conn CancelFunc).

Lemma notifyClients_empty order msg w :
  subscribers w !! RoomID msg = None ∨ subscribers w !! RoomID msg = Some ∅ →
  notifyClients order msg w = w.
Proof.
  unfold notifyClients. intros [-> | ->]; [done|].
  by rewrite decide_True by apply map_size_empty.
Qed.

Lemma notifyClients_range order msg w set :
  subscribers w !! RoomID msg = Some set → set ≠ ∅ →
  notifyClients order msg w = range_subscribers msg order w.
Proof.
  unfold notifyClients. intros -> Hne.
  by rewrite decide_False by by rewrite map_size_empty_iff.
Qed.

(** with the order of a run, [notifyClients] is its loop *)
Lemma notifyClients_loop order msg w :
  range_visits (default ∅ (subscribers w !! RoomID msg)) order →
  notifyClients order msg w = range_subscribers msg order w.
Proof.
  intros Horder.
  destruct (subscribers w !! RoomID msg) as [set|] eqn:Hroom; simpl in *.
  - destruct (decide (set = ∅)) as [->|Hne].
    + apply range_visits_empty in Horder as ->.
      apply notifyClients_empty. by right.
    + by eapply notifyClients_range.
  - apply range_visits_empty in Horder as ->.
    apply notifyClients_empty. by left.
Qed.

Lemma notifyClients_writes_to order msg w c :
  range_visits (default ∅ (subscribers w !! RoomID msg)) order →
  writes_to c (wire (notifyClients order msg w))
  = writes_to c (wire w)
    ++ (if decide (is_Some (default ∅ (subscribers w !! RoomID msg) !! c))
        then [write_outcome (broken w) c msg] else []).
Proof.
  intros Horder. rewrite notifyClients_loop by done.
  rewrite range_subscribers_wire, writes_to_app. f_equal.
  rewrite (writes_to_outcomes c (λ c, write_outcome (broken w) c msg)).
  rewrite (range_visits_filter _ _ c Horder).
  destruct (default ∅ (subscribers w !! RoomID msg) !! c) as [cancel|] eqn:Hc.
  - by rewrite decide_True.
  - rewrite decide_False; [done|]. by intros [? ?].
Qed.

(** C1. A publish makes one [WriteJSON] call on every connection registered
    under the event's room and on no other connection: the calls on [c]
    grow by exactly one, with the event, when [c] is in the room's set, and
    do not grow otherwise. A registered subscriber whose transport works is
    delivered the event's document. In a run of the process a subscriber
    of another room is not written to. When the room has no entry or an
    empty set, the publish changes nothing. *)
Theorem notifyClients_room_scoped w msg order :
  range_visits (default ∅ (subscribers w !! RoomID msg)) order →
  let set := default ∅ (subscribers w !! RoomID msg) in
  let w' := notifyClients order msg w in
  (∀ c, writes_to c (wire w')
        = writes_to c (wire w)
          ++ (if decide (is_Some (set !! c))
              then [write_outcome (broken w) c msg] else []))
  ∧ (∀ c j, is_Some (set !! c) → c ∉ broken w → MarshalJSON msg = Ok j →
        writes_to c (wire w') = writes_to c (wire w) ++ [Ok j])
  ∧ (∀ d room' set' c, reachable d w → room' ≠ RoomID msg →
        subscribers w !! room' = Some set' → is_Some (set' !! c) →
        writes_to c (wire w') = writes_to c (wire w))
  ∧ (subscribers w !! RoomID msg = None
     ∨ subscribers w !! RoomID msg = Some ∅ → w' = w).
Proof.
  intros Horder set w'. split_and!.
  - intros c. by apply notifyClients_writes_to.
  - intros c j Hc Hok Hj. subst w'. rewrite notifyClients_writes_to by done.
    rewrite decide_True by done. unfold write_outcome.
    by rewrite decide_False, Hj by done.
  - intros d room' set' c Hreach Hroom Hset' Hc. subst w'.
    rewrite notifyClients_writes_to by done.
    rewrite decide_False; [by rewrite app_nil_r|].
    intros Hin. destruct (subscribers w !! RoomID msg) as [set0|] eqn:Hset0;
      simpl in Hin; [|by rewrite lookup_empty in Hin; destruct Hin].
    apply Hroom. eapply registry_inv_one_room; [|done..].
    by eapply reachable_registry_inv.
  - apply notifyClients_empty.
Qed.

(** C2. When the write to a registered subscriber fails, the publish logs
    the failure and calls that subscriber's cancel function; it leaves the
    registry as it was, so the subscriber is still registered; every
    subscriber of the room still gets its one [WriteJSON] call; only
    subscribers whose write failed are cancelled; and the publish gives
    nothing back to its caller but the new state: the store, the pending
    publishes and the parked handlers are untouched. *)
Theorem notifyClients_write_failure w msg order set c cancel e :
  subscribers w !! RoomID msg = Some set →
  range_visits set order →
  set !! c = Some cancel →
  write_outcome (broken w) c msg = Err e →
  let w' := notifyClients order msg w in
  failure_log e ∈ logs w'
  ∧ cancel ∈ ctx_done w'
  ∧ subscribers w' = subscribers w
  ∧ (∀ c', is_Some (set !! c') →
       writes_to c' (wire w')
       = writes_to c' (wire w) ++ [write_outcome (broken w) c' msg])
  ∧ (∀ k, k ∈ ctx_done w' → k ∉ ctx_done w →
       ∃ c' e', set !! c' = Some k ∧
                write_outcome (broken w) c' msg = Err e')
  ∧ db w' = db w ∧ goroutines w' = goroutines w ∧ waiting w' = waiting w.
Proof.
  intros Hset Horder Hc He w'.
  assert (range_visits (default ∅ (subscribers w !! RoomID msg)) order)
    as Horder' by by rewrite Hset.
  assert (w' = range_subscribers msg order w) as Hloop
    by by apply notifyClients_loop.
  destruct (range_subscribers_frame msg order w)
    as (Hdb & Hsubs & _ & Hgo & Hwait & _).
  assert ((c, cancel) ∈ order) as Hin by by apply (range_visits_elem set).
  rewrite Hloop. split_and!; try done.
  - rewrite range_subscribers_logs. apply elem_of_app. right.
    apply list_elem_of_omap. exists (c, cancel). split; [done|].
    simpl. by rewrite He.
  - apply range_subscribers_ctx_done. right. by exists c, e.
  - intros c' Hc'. rewrite <- Hloop. subst w'.
    rewrite notifyClients_writes_to by done.
    by rewrite Hset, decide_True.
  - intros k [?|(c' & e' & Hin' & He')]%range_subscribers_ctx_done Hnew;
      [done|].
    exists c', e'. split; [|done]. by apply (range_visits_elem set order).
Qed.

End Publish.

(** ** The wire format *)

Section Events.
Context `{Pgstore}.
Implicit Types (w : World) (msg : Message) (c : Conn).

Lemma produced_wire_form msg :
  produced msg → ∃ j, MarshalJSON msg = Ok j ∧ wire_form j.
Proof.
  destruct 1 as [id text room|id count room|id count room|id room];
    eexists; (split; [reflexivity|]); constructor;
    apply int64_in_range.
Qed.

(** the document of an event does not depend on its target room *)
Lemma MarshalJSON_RoomID msg room :
  MarshalJSON {| Kind := Kind msg; Value := Value msg; RoomID := room |}
  = MarshalJSON msg.
Proof. reflexivity. Qed.

Lemma ServeHTTP_wire rt w rw r : wire (ServeHTTP rt w rw r).1 = wire w.
Proof.
  destruct (decide (rt = GET_subscribe)) as [->|Hrt].
  - destruct (handleSubscribe_cases w rw r) as [(Hhub & _)|Hsub].
    + apply Hhub.
    + destruct Hsub as (? & ? & _ & _ & _ & _ & _ & _ & _ & _ & Hw & _).
      exact Hw.
  - apply (ServeHTTP_same_hub rt w rw r Hrt).
Qed.

(** every pending publish is an event built by a handler, and every
    document delivered is the document of such an event *)
Lemma reachable_events d w :
  reachable d w →
  Forall produced (goroutines w) ∧
  ∀ c j, (c, Ok j) ∈ wire w → ∃ msg, produced msg ∧ MarshalJSON msg = Ok j.
Proof.
  induction 1 as [|w ev w' _ [IHgo IHwire] Hstep].
  - split; [constructor|]. by intros c j ?%elem_of_nil.
  - destruct Hstep as [rt r w| s w Hs| s w Hs Hdone
      | msg order before after w Hgo Horder| c w]; try done.
    + split; [|by rewrite ServeHTTP_wire].
      destruct (ServeHTTP_spawns rt w r)
        as [[-> _]|(msg & -> & Hmsg & _)]; [done|].
      apply Forall_app. split; [done|]. by apply Forall_singleton.
    + rewrite Hgo in IHgo.
      apply Forall_app in IHgo as [Hbefore [Hmsg Hafter]%Forall_cons].
      rewrite notifyClients_loop by done. split.
      * destruct (range_subscribers_frame msg order
                    (set_goroutines (before ++ after) w))
          as (_ & _ & _ & -> & _).
        simpl. by apply Forall_app.
      * intros c j. rewrite range_subscribers_wire. simpl.
        rewrite elem_of_app, list_elem_of_fmap.
        intros [?|([c' cancel] & [= -> Hj] & _)]; [by eauto|].
        exists msg. split; [done|]. simpl in Hj.
        unfold write_outcome in Hj. by case_decide.
Qed.

(** C3. In every run, a document delivered to a subscriber is one of the
    four envelopes [{kind, value}]: kind [message_created] with value
    [{id, message}], kinds [message_reaction_increased] and
    [message_reaction_decreased] with value [{id, count}], count in the
    signed 64-bit range, and kind [message_answered] with value [{id}].
    It is the document of an event built by a handler, and that document is
    the same whatever the event's target room: the room identifier is not
    part of it. *)
Theorem wire_envelope d w c j :
  reachable d w →
  (c, Ok j) ∈ wire w →
  wire_form j ∧
  ∃ msg, produced msg ∧
         ∀ room, MarshalJSON {| Kind := Kind msg; Value := Value msg;
                                RoomID := room |} = Ok j.
Proof.
  intros Hreach Hin.
  destruct (reachable_events d w Hreach) as [_ Hwire].
  destruct (Hwire c j Hin) as (msg & Hmsg & Hj). split.
  - destruct (produced_wire_form msg Hmsg) as (j' & Hj' & Hform). congruence.
  - exists msg. split; [done|]. intros room. by rewrite MarshalJSON_RoomID.
Qed.

(** C8. Each of the four event-producing handlers only spawns the publish:
    the run of the handler writes to no subscriber, cancels none and
    leaves the registry alone; it answers with status 200 exactly when it
    has queued one [go notifyClients] for the room of the request, which
    has not run when the handler returns; and its answer is the same
    whatever the registry, the transports and the pending publishes are.
    When the room and the message of the request are found and the store
    call of the handler succeeds, the handler does answer: with status 200
    and its success body, and with the event queued, whatever the state of
    the subscribers. *)
Theorem producers_fire_and_forget rt w r :
  is_producer rt = true →
  let w' := (ServeHTTP rt w NewResponseWriter r).1 in
  let rw' := (ServeHTTP rt w NewResponseWriter r).2 in
  same_hub w w'
  ∧ (Status rw' = Some StatusOK ↔
       ∃ msg, goroutines w' = goroutines w ++ [msg] ∧ produced msg ∧
              RoomID msg = URLParam r "room_id")
  ∧ (Status rw' ≠ Some StatusOK → goroutines w' = goroutines w)
  ∧ (∀ w2, db w2 = db w → (ServeHTTP rt w2 NewResponseWriter r).2 = rw')
  ∧ (∀ id room,
       uuid_Parse (URLParam r "room_id") = Ok id →
       GetRoom (db w) id = Ok room →
       let answered (d : DB) (body : string) (msg : Message) :=
         Status rw' = Some StatusOK ∧ Body rw' = body ∧ db w' = d ∧
         goroutines w' = goroutines w ++ [msg] in
       match rt with
       | POST_messages =>
           ∀ text d mid,
             json_decode_field "message" (ReqBody r) = Ok text →
             InsertMessage (db w) id text = (d, Ok mid) →
             answered d
               (json_encode (JObject [("id", JString (uuid_String mid))]))
               {| Kind := MessageCreated;
                  Value := Any {| created_ID := uuid_String mid;
                                  created_Message := text |};
                  RoomID := URLParam r "room_id" |}
       | PATCH_react =>
           ∀ mid message d count,
             uuid_Parse (URLParam r "message_id") = Ok mid →
             GetMessage (db w) mid = Ok message →
             ReactToMessage (db w) mid = (d, Ok count) →
             answered d
               (json_encode (JObject [("count", JNumber (int64_val count))]))
               {| Kind := MessageRactionIncreased;
                  RoomID := URLParam r "room_id";
                  Value := Any {| increased_ID := URLParam r "message_id";
                                  increased_Count := count |} |}
       | DELETE_react =>
           ∀ mid message d count,
             uuid_Parse (URLParam r "message_id") = Ok mid →
             GetMessage (db w) mid = Ok message →
             RemoveReactionFromMessage (db w) mid = (d, Ok count) →
             answered d
               (json_encode (JObject [("count", JNumber (int64_val count))]))
               {| Kind := MessageRactionDecreased;
                  RoomID := URLParam r "room_id";
                  Value := Any {| decreased_ID := URLParam r "message_id";
                                  decreased_Count := count |} |}
       | PATCH_answer =>
           ∀ mid message d,
             uuid_Parse (URLParam r "message_id") = Ok mid →
             GetMessage (db w) mid = Ok message →
             MarkMessageAsAnswered (db w) mid = (d, None) →
             answered d ""
               {| Kind := MessageAnswered;
                  RoomID := URLParam r "room_id";
                  Value := Any {| answered_ID := URLParam r "message_id" |} |}
       | _ => True
       end).
Proof.
  intros Hrt w' rw'. split_and!.
  - apply ServeHTTP_same_hub. by intros ->.
  - destruct (ServeHTTP_spawns rt w r)
      as [[Hgo Hst]|(msg & Hgo & Hmsg & Hroom & _ & Hst)].
    + split; [by intros ?%(Hst Hrt)|].
      intros (msg & Hgo' & _). subst w'. rewrite Hgo in Hgo'.
      apply (f_equal length) in Hgo'. rewrite length_app in Hgo'.
      simpl in Hgo'. lia.
    + split; [|done]. intros _. by exists msg.
  - destruct (ServeHTTP_spawns rt w r)
      as [[Hgo _]|(msg & _ & _ & _ & _ & Hst)]; [done|].
    by intros [].
  - intros w2 Hdb. by apply ServeHTTP_response_of_store.
  - intros id room Hid Hroom answered. subst answered w' rw'.
    destruct rt; try done; unfold ServeHTTP.
    + intros text d mid Htext Hins.
      unfold handleCreateRoomMessage, readRoom.
      rewrite Hid, Hroom. cbn beta iota zeta. rewrite Htext.
      cbn beta iota zeta. rewrite Hins. by split_and!.
    + intros mid message d count Hmid Hmsg Hstore.
      unfold handleAddReactToMessage, readRoom, readMessage.
      rewrite Hid, Hroom. cbn beta iota zeta. rewrite Hmid, Hmsg.
      cbn beta iota zeta. rewrite Hstore. by split_and!.
    + intros mid message d count Hmid Hmsg Hstore.
      unfold handleRemoveReactFromMessage, readRoom, readMessage.
      rewrite Hid, Hroom. cbn beta iota zeta. rewrite Hmid, Hmsg.
      cbn beta iota zeta. rewrite Hstore. by split_and!.
    + intros mid message d Hmid Hmsg Hstore.
      unfold handleMarkMessageAsAnswered, readRoom, readMessage.
      rewrite Hid, Hroom. cbn beta iota zeta. rewrite Hmid, Hmsg.
      cbn beta iota zeta. rewrite Hstore. by split_and!.
Qed.

End Events.

(** ** Deregistration and the life of a room's entry *)

Section Entries.
Implicit Types (subs : gmap string (gmap Conn CancelFunc)).
Implicit Types (room : string) (c : Conn) (cancel : CancelFunc).

Lemma deregister_absent room c subs :
  (subs !! room ≫= (.!! c)) = None → deregister room c subs = subs.
Proof.
  intros Habsent. apply map_eq. intros room'. rewrite lookup_deregister.
  case_decide as Hroom; [subst room'|done].
  destruct (subs !! room) as [set|]; [|done]. simpl in *.
  by rewrite delete_id.
Qed.

Lemma deregister_deregister room c room' c' subs :
  deregister room c (deregister room' c' subs)
  = deregister room' c' (deregister room c subs).
Proof.
  apply map_eq. intros r. rewrite !lookup_deregister.
  destruct (decide (room = r)) as [->|Hr], (decide (room' = r)) as [->|Hr'];
    rewrite ?lookup_deregister, ?decide_True, ?decide_False by done;
    try done.
  destruct (subs !! r) as [set|]; [|done]. simpl. by rewrite delete_delete.
Qed.

(** C5. Deregistering is idempotent and cannot fail: removing a handle
    twice is removing it once; removing a handle that is not in the room's
    set, or from a room that has no entry, leaves the registry as it is;
    a handle that is present is removed from its room's set and nothing
    else changes; and two removals give the same registry in either
    order. *)
Theorem deregister_idempotent room c subs :
  deregister room c (deregister room c subs) = deregister room c subs
  ∧ (subs !! room = None → deregister room c subs = subs)
  ∧ (∀ set, subs !! room = Some set → set !! c = None →
       deregister room c subs = subs)
  ∧ (∀ set, subs !! room = Some set →
       deregister room c subs !! room = Some (delete c set))
  ∧ (∀ room', room' ≠ room → deregister room c subs !! room' = subs !! room')
  ∧ (∀ room' c', deregister room c (deregister room' c' subs)
                 = deregister room' c' (deregister room c subs)).
Proof.
  split_and!.
  - apply deregister_absent. rewrite lookup_deregister, decide_True by done.
    destruct (subs !! room) as [set|]; [|done]. simpl. apply lookup_delete_eq.
  - intros Hroom. apply deregister_absent. by rewrite Hroom.
  - intros set Hroom Hc. apply deregister_absent. by rewrite Hroom.
  - intros set Hroom. by rewrite lookup_deregister, decide_True, Hroom.
  - intros room' Hne. by rewrite lookup_deregister, decide_False.
  - intros room' c'. apply deregister_deregister.
Qed.

Lemma register_entry room c cancel room' subs :
  is_Some (register room c cancel subs !! room') ↔
  room' = room ∨ is_Some (subs !! room').
Proof.
  rewrite lookup_register. case_decide as Hroom.
  - subst room'. split; [by left|by eauto].
  - split; [by right|]. by intros [?|?].
Qed.

Lemma deregister_entry room c room' subs :
  is_Some (deregister room c subs !! room') ↔ is_Some (subs !! room').
Proof.
  rewrite lookup_deregister. case_decide as Hroom; [subst room'|done].
  by rewrite fmap_is_Some.
Qed.

End Entries.

Section EntryLifecycle.
Context `{Pgstore}.
Implicit Types (w : World) (room : string).

Lemma step_entries w ev w' room :
  step w ev w' →
  (is_Some (subscribers w !! room) → is_Some (subscribers w' !! room))
  ∧ (is_Some (subscribers w' !! room) → subscribers w !! room = None →
       ∃ r, ev = EvRequest GET_subscribe r ∧ URLParam r "room_id" = room).
Proof.
  intros Hstep. destruct Hstep as [rt r w| s w Hs| s w Hs Hdone
    | msg order before after w Hgo Horder| c w]; simpl.
  - destruct (decide (rt = GET_subscribe)) as [->|Hrt].
    + simpl. destruct (handleSubscribe_cases w NewResponseWriter r)
        as [((-> & _) & _)|(? & ? & _ & _ & -> & _)].
      * split; [done|]. intros Hsome Hnone. rewrite Hnone in Hsome.
        by destruct Hsome.
      * rewrite register_entry. split; [by right|].
        intros [->|Hsome] Hnone; [by eexists|].
        rewrite Hnone in Hsome. by destruct Hsome.
    + destruct (ServeHTTP_same_hub rt w NewResponseWriter r Hrt) as (-> & _).
      split; [done|]. intros Hsome Hnone. rewrite Hnone in Hsome.
      by destruct Hsome.
  - split; [done|]. intros Hsome Hnone. rewrite Hnone in Hsome.
    by destruct Hsome.
  - rewrite deregister_entry. split; [done|]. intros Hsome Hnone.
    rewrite Hnone in Hsome. by destruct Hsome.
  - destruct (notifyClients_frame order msg
               (set_goroutines (before ++ after) w)) as (_ & -> & _).
    simpl. split; [done|]. intros Hsome Hnone. rewrite Hnone in Hsome.
    by destruct Hsome.
  - split; [done|]. intros Hsome Hnone. rewrite Hnone in Hsome.
    by destruct Hsome.
Qed.

Lemma later_entries w w' room :
  later w w' → is_Some (subscribers w !! room) →
  is_Some (subscribers w' !! room).
Proof.
  induction 1 as [|w1 ev w2 _ IH Hstep]; [done|].
  intros Hsome. by apply (step_entries w1 ev w2 room Hstep), IH.
Qed.

(** C6. The registry starts without entries. Registering makes the room's
    entry if there is none and keeps all others; deregistering and publishing
    keep every entry. So in a run an entry, once made, is there in every
    later state, and an entry appears only in the step of a subscribe
    request for that room. When the only subscriber of a room wakes up and
    deregisters, the room's entry stays, as the empty set. *)
Theorem room_entries_persist room :
  (∀ d, subscribers (NewHandler d) !! room = None)
  ∧ (∀ r c cancel subs,
       is_Some (register r c cancel subs !! room) ↔
       room = r ∨ is_Some (subs !! room))
  ∧ (∀ r c subs,
       is_Some (deregister r c subs !! room) ↔ is_Some (subs !! room))
  ∧ (∀ order msg w, subscribers (notifyClients order msg w) = subscribers w)
  ∧ (∀ w w', later w w' → is_Some (subscribers w !! room) →
       is_Some (subscribers w' !! room))
  ∧ (∀ w ev w', step w ev w' → subscribers w !! room = None →
       is_Some (subscribers w' !! room) →
       ∃ r, ev = EvRequest GET_subscribe r ∧ URLParam r "room_id" = room)
  ∧ (∀ w s, sub_room s = room →
       subscribers w !! room = Some {[sub_conn s := sub_cancel s]} →
       subscribers (handleSubscribe_resume s w) !! room = Some ∅).
Proof.
  split_and!.
  - intros d. apply lookup_empty.
  - intros r c cancel subs. apply register_entry.
  - intros r c subs. apply deregister_entry.
  - intros order msg w. apply notifyClients_frame.
  - intros w w'. apply later_entries.
  - intros w ev w' Hstep Hnone Hsome.
    by apply (step_entries w ev w' room Hstep).
  - intros w s <- Hset. unfold handleSubscribe_resume. simpl.
    rewrite lookup_deregister, decide_True, Hset by done. simpl.
    by rewrite delete_singleton_eq.
Qed.

End EntryLifecycle.

(** ** Subscribing and leaving *)

Section Subscribe.
Context `{Pgstore}.
Implicit Types (w : World) (rw : ResponseWriter) (r : Request).
Implicit Types (s : Subscription) (c : Conn).

Lemma set_logs_id w : set_logs (logs w) w = w.
Proof. by destruct w. Qed.

(** C7. When the room identifier of a subscribe request is not a UUID, or
    the store has no such room, or the store fails, [handleSubscribe]
    returns after [readRoom]: the upgrader is not called, so the answer is
    the error reply of [readRoom] alone and no connection object is made;
    nothing is registered and nothing parked. The state is the one before
    the request, but for the log line of a store failure. *)
Theorem handleSubscribe_rejected w rw r :
  (∃ e, uuid_Parse (URLParam r "room_id") = Err e)
  ∨ (∃ id e, uuid_Parse (URLParam r "room_id") = Ok id ∧
             GetRoom (db w) id = Err e) →
  let w' := (handleSubscribe w rw r).1 in
  let rw' := (handleSubscribe w rw r).2 in
  w' = set_logs (logs w') w
  ∧ subscribers w' = subscribers w
  ∧ waiting w' = waiting w
  ∧ next_conn w' = next_conn w ∧ next_ctx w' = next_ctx w
  ∧ (rw' = http_Error rw "invalid room id" StatusBadRequest
     ∨ rw' = http_Error rw "room not found" StatusBadRequest
     ∨ rw' = http_Error rw "something went wrong" StatusInternalServerError).
Proof.
  intros Hbad w' rw'. subst w' rw'. unfold handleSubscribe, readRoom.
  destruct Hbad as [[e ->]|(id & e & -> & ->)].
  - simpl. rewrite set_logs_id. split_and!; try done. by left.
  - destruct (is_ErrNoRows e); simpl.
    + rewrite set_logs_id. split_and!; try done. right. by left.
    + split_and!; try done. right. by right.
Qed.

(** *** After the teardown *)

Lemma unregistered_step c w ev w' :
  unregistered c w → step w ev w' →
  unregistered c w' ∧ writes_to c (wire w') = writes_to c (wire w).
Proof.
  intros [Hlt Hout] Hstep. destruct Hstep as [rt r w| s w Hs| s w Hs Hdone
    | msg order before after w Hgo Horder| c' w]; simpl; try done.
  - rewrite ServeHTTP_wire. split; [|done].
    destruct (decide (rt = GET_subscribe)) as [->|Hrt].
    + simpl. destruct (handleSubscribe_cases w NewResponseWriter r)
        as [((Hs & _ & _ & _ & _ & Hn & _) & _)
           |(? & ? & _ & _ & Hs & _ & Hn & _)];
        split; rewrite ?Hs, ?Hn; try done; try lia.
      intros room set. rewrite lookup_register.
      case_decide as Hroom; [|by apply Hout].
      intros [= <-]. rewrite lookup_insert_ne by lia.
      destruct (subscribers w !! URLParam r "room_id") as [set|] eqn:Hset;
        simpl; [by eapply Hout|done].
    + destruct (ServeHTTP_same_hub rt w NewResponseWriter r Hrt)
        as (Hs & _ & _ & _ & _ & Hn & _).
      split; by rewrite ?Hs, ?Hn.
  - split; [|done]. split; [done|]. simpl.
    intros room set. rewrite lookup_deregister.
    case_decide as Hroom; [|by apply Hout].
    destruct (subscribers w !! sub_room s) as [set'|] eqn:Hset; [|done].
    simpl. intros [= <-]. rewrite lookup_delete.
    case_decide; [done|]. by eapply Hout.
  - destruct (notifyClients_frame order msg
               (set_goroutines (before ++ after) w))
      as (_ & Hs & _ & _ & _ & Hn & _).
    split; [split; by rewrite ?Hs, ?Hn|].
    rewrite notifyClients_writes_to by done. simpl.
    rewrite decide_False; [by rewrite app_nil_r|].
    destruct (subscribers w !! RoomID msg) as [set|] eqn:Hset; simpl.
    + rewrite (Hout _ _ Hset). by intros [? ?].
    + rewrite lookup_empty. by intros [? ?].
Qed.

Lemma unregistered_later c w w' :
  unregistered c w → later w w' →
  unregistered c w' ∧ writes_to c (wire w') = writes_to c (wire w).
Proof.
  intros Hout. induction 1 as [|w1 ev w2 _ [IH Hwire] Hstep]; [done|].
  destruct (unregistered_step c w1 ev w2 IH Hstep) as [Hout' Hwire'].
  split; [done|]. by rewrite Hwire'.
Qed.

Lemma resume_unregistered w s :
  registry_inv w → s ∈ waiting w →
  unregistered (sub_conn s) (handleSubscribe_resume s w).
Proof.
  intros Hinv Hs. pose proof (registry_inv_resume w s Hinv Hs) as Hinv'.
  split; [by apply (inv_allocated w Hinv)|].
  intros room set Hset.
  destruct (set !! sub_conn s) as [cancel|] eqn:Hc; [|done].
  pose proof (inv_parked _ Hinv' _ _ _ _ Hset Hc) as Hin.
  unfold handleSubscribe_resume in Hin. simpl in Hin.
  apply list_elem_of_filter in Hin as [Hne Hin]. destruct Hne.
  by apply (sub_conn_inj_on (waiting w)); [apply Hinv|..].
Qed.

(** C4, as it holds. Take a subscriber whose cancellation has fired, by
    any source, while its [handleSubscribe] call is still parked. Until the
    call wakes up and deregisters, the handle is still in its room's set
    with its cancel function, and a publish for the room that runs in this
    window makes one more [WriteJSON] call on it and leaves it registered.
    Once the call has woken up and deregistered, the handle is in no
    room's set in any later state, no [WriteJSON] call is made on it any
    more, and no publish, for its room or another, attempts delivery to
    it. *)
Theorem deregistered_subscriber_gone d w s :
  reachable d w →
  s ∈ waiting w →
  sub_cancel s ∈ ctx_done w →
  (subscribers w !! sub_room s ≫= (.!! sub_conn s) = Some (sub_cancel s)
   ∧ ∀ msg order,
       RoomID msg = sub_room s →
       range_visits (default ∅ (subscribers w !! RoomID msg)) order →
       writes_to (sub_conn s) (wire (notifyClients order msg w))
       = writes_to (sub_conn s) (wire w)
         ++ [write_outcome (broken w) (sub_conn s) msg]
       ∧ subscribers (notifyClients order msg w) !! sub_room s
         ≫= (.!! sub_conn s) = Some (sub_cancel s))
  ∧ (∀ w2,
       later (handleSubscribe_resume s w) w2 →
       (∀ room set, subscribers w2 !! room = Some set →
                    set !! sub_conn s = None)
       ∧ writes_to (sub_conn s) (wire w2) = writes_to (sub_conn s) (wire w)
       ∧ (∀ msg order,
            range_visits (default ∅ (subscribers w2 !! RoomID msg)) order →
            writes_to (sub_conn s) (wire (notifyClients order msg w2))
            = writes_to (sub_conn s) (wire w2))).
Proof.
  intros Hreach Hs Hfired.
  pose proof (reachable_registry_inv d w Hreach) as Hinv.
  destruct (inv_registered w Hinv s Hs) as (set & Hset & Hc).
  assert (subscribers w !! sub_room s ≫= (.!! sub_conn s)
          = Some (sub_cancel s)) as Hreg by by rewrite Hset.
  split; [split; [done|]|].
  - intros msg order Hroom Horder. split.
    + rewrite notifyClients_writes_to by done.
      rewrite Hroom, Hset. simpl. by rewrite decide_True by by eexists.
    + by destruct (notifyClients_frame order msg w) as (_ & -> & _).
  - intros w2 Hlater.
    pose proof (resume_unregistered w s Hinv Hs) as Hout.
    destruct (unregistered_later _ _ _ Hout Hlater) as [[Hlt Hout2] Hwire].
    split_and!; [done|done|].
    intros msg order Horder. rewrite notifyClients_writes_to by done.
    rewrite decide_False; [by rewrite app_nil_r|].
    destruct (subscribers w2 !! RoomID msg) as [set2|] eqn:Hset2; simpl.
    + rewrite (Hout2 _ _ Hset2). by intros [? ?].
    + rewrite lookup_empty. by intros [? ?].
Qed.

End Subscribe.

(** ** Responses *)

Section Responses.
Context `{Pgstore}.
Implicit Types (w : World) (rw : ResponseWriter) (r : Request).

Lemma Body_Write data rw : Body (Write data rw) = Body rw +:+ data.
Proof. unfold Write, WriteHeader. by destruct (Status rw). Qed.

Lemma Header_Write data rw : Header (Write data rw) = Header rw.
Proof. unfold Write, WriteHeader. by destruct (Status rw). Qed.

Lemma Body_sendJSON {A} `{Marshaler A} rw (v : A) :
  Body (sendJSON rw v) = Body rw +:+ (json_Marshal v).1.
Proof.
  unfold sendJSON. destruct (json_Marshal v) as [data err].
  by rewrite Body_Write.
Qed.

Lemma Header_sendJSON {A} `{Marshaler A} rw (v : A) :
  Header (sendJSON rw v) = <["Content-Type" := "application/json"]> (Header rw).
Proof.
  unfold sendJSON. destruct (json_Marshal v) as [data err].
  by rewrite Header_Write.
Qed.

(** C9. When the store gives back a nil slice and no error, the two list
    handlers replace it by an empty slice before they answer: the body they
    write is the text of the empty array, where the nil slice itself would
    have been written as [null]. *)
Theorem list_handlers_empty_array w rw r :
  (GetRooms (db w) = Ok nil_slice →
     (handleGetRooms w rw r).2 = sendJSON rw (Slice ([] : list Room)) ∧
     Body (handleGetRooms w rw r).2 = Body rw +:+ "[]")
  ∧ (∀ room raw id,
       readRoom w rw r = (w, rw, Some (room, raw, id)) →
       GetRoomMessages (db w) id = Ok nil_slice →
       (handleGetRoomMessages w rw r).2
       = sendJSON rw (Slice ([] : list StoreMessage)) ∧
       Body (handleGetRoomMessages w rw r).2 = Body rw +:+ "[]")
  ∧ Body (sendJSON rw (nil_slice : slice Room)) = Body rw +:+ "null"
  ∧ Body (sendJSON rw (nil_slice : slice StoreMessage)) = Body rw +:+ "null".
Proof.
  split_and!.
  - intros Hnil. unfold handleGetRooms. rewrite Hnil.
    cbn beta iota zeta delta [snd].
    split; [done|]. rewrite Body_sendJSON. reflexivity.
  - intros room raw id Hroom Hnil. unfold handleGetRoomMessages.
    rewrite Hroom, Hnil. cbn beta iota zeta delta [snd].
    split; [done|]. rewrite Body_sendJSON. reflexivity.
  - rewrite Body_sendJSON. reflexivity.
  - rewrite Body_sendJSON. reflexivity.
Qed.

End Responses.

Section SendJSON.
Context `{Libs}.

(** C10. [sendJSON] drops the error of [json.Marshal]: for every value it
    sets the header [Content-Type] to [application/json] and writes the
    bytes that [Marshal] gave, which are none when the value cannot be
    encoded; on a writer whose status is not yet written the status becomes
    200 in both cases, and the function gives its caller nothing but the
    writer. *)
Theorem sendJSON_discards_errors {A} `{Marshaler A} (rw : ResponseWriter)
  (rawData : A) :
  let rw' := sendJSON rw rawData in
  Header rw' !! "Content-Type" = Some "application/json"
  ∧ Body rw' = Body rw +:+ (json_Marshal rawData).1
  ∧ Status rw' = Some (default StatusOK (Status rw))
  ∧ (∀ j, MarshalJSON rawData = Ok j → Body rw' = Body rw +:+ json_encode j)
  ∧ (∀ e, MarshalJSON rawData = Err e →
       Body rw' = Body rw ∧
       (Status rw = None → Status rw' = Some StatusOK)).
Proof.
  intros rw'. subst rw'. unfold sendJSON, json_Marshal.
  destruct (MarshalJSON rawData) as [j|e] eqn:Hm; simpl;
    destruct (Status rw) as [code|] eqn:Hst; unfold Write, WriteHeader;
    simpl; rewrite ?Hst; simpl; rewrite ?lookup_insert_eq, ?Hst;
    split_and!; try done;
    try (by intros ? [= <-]);
    try (intros e' _; by rewrite append_empty_r);
    try (intros e' _; split; [by rewrite append_empty_r|done]).
Qed.

End SendJSON.

(** ** The concrete run *)

Section Run.

Lemma demo_serve_step rt room addr (w : @World demo_libs demo_store) :
  step w (EvRequest rt (demo_request room addr)) (demo_serve rt room addr w).
Proof. apply step_request. Qed.

Lemma demo_subscribed_reachable : reachable demo_db demo_subscribed.
Proof.
  unfold demo_subscribed.
  repeat (eapply reachable_step; [|apply demo_serve_step]).
  apply reachable_init.
Qed.

Lemma demo_posted_reachable : reachable demo_db demo_posted.
Proof.
  unfold demo_posted.
  repeat (eapply reachable_step; [|apply demo_serve_step]).
  eapply reachable_step; [apply demo_subscribed_reachable|].
  apply step_transport_failure.
Qed.

Lemma demo_first_step :
  step demo_posted (EvNotify demo_msg demo_order) demo_first.
Proof.
  apply (step_notify demo_msg demo_order [] [demo_msg] demo_posted).
  - vm_compute. reflexivity.
  - unfold range_visits. vm_compute. reflexivity.
Qed.

Lemma demo_second_step :
  step demo_first (EvNotify demo_msg demo_order) demo_second.
Proof.
  apply (step_notify demo_msg demo_order [] [] demo_first).
  - vm_compute. reflexivity.
  - unfold range_visits. vm_compute. reflexivity.
Qed.

Lemma demo_first_reachable : reachable demo_db demo_first.
Proof.
  eapply reachable_step; [apply demo_posted_reachable|apply demo_first_step].
Qed.

Lemma demo_second_reachable : reachable demo_db demo_second.
Proof.
  eapply reachable_step; [apply demo_first_reachable|apply demo_second_step].
Qed.

Lemma demo_order_visits (w : @World demo_libs demo_store) :
  subscribers w !! "r1" = Some demo_r1 →
  range_visits (default ∅ (subscribers w !! RoomID demo_msg)) demo_order.
Proof.
  intros Hr1. change (RoomID demo_msg) with "r1". rewrite Hr1.
  unfold range_visits. vm_compute. reflexivity.
Qed.

(** C4, as the claim states it, fails. In the run above the write to A
    fails in the first publish, which fires A's cancellation; the second
    publish for A's room runs before A's handler has woken up: A is still
    in the set of its room, and the publish makes one more [WriteJSON] call
    on A's connection. *)
Lemma cancelled_subscriber_still_written :
  reachable demo_db demo_first
  ∧ demo_A ∈ waiting demo_first
  ∧ sub_cancel demo_A ∈ ctx_done demo_first
  ∧ step demo_first (EvNotify demo_msg demo_order) demo_second
  ∧ RoomID demo_msg = sub_room demo_A
  ∧ subscribers demo_first !! sub_room demo_A ≫= (.!! sub_conn demo_A)
    = Some (sub_cancel demo_A)
  ∧ writes_to (sub_conn demo_A) (wire demo_second)
    = writes_to (sub_conn demo_A) (wire demo_first)
      ++ [Err (ErrorString "write: connection closed")]
  ∧ subscribers demo_second !! sub_room demo_A ≫= (.!! sub_conn demo_A)
    = Some (sub_cancel demo_A).
Proof.
  split_and!.
  - apply demo_first_reachable.
  - vm_compute. apply list_elem_of_here.
  - apply (bool_decide_unpack _). vm_compute. exact I.
  - apply demo_second_step.
  - reflexivity.
  - vm_compute. reflexivity.
  - vm_compute. reflexivity.
  - vm_compute. reflexivity.
Qed.

Lemma demo_subscribed_r1 : subscribers demo_subscribed !! "r1" = Some demo_r1.
Proof. vm_compute. reflexivity. Qed.

Lemma demo_A_broken_r1 : subscribers demo_A_broken !! "r1" = Some demo_r1.
Proof. vm_compute. reflexivity. Qed.

(** *** The theorems at the concrete run *)

(** A publish for r1 with A, B on r1 and C on r2: B gets the event, C gets
    nothing. *)
Lemma notifyClients_room_scoped_witness :
  range_visits (default ∅ (subscribers demo_subscribed !! RoomID demo_msg))
    demo_order
  ∧ writes_to 2 (wire (notifyClients demo_order demo_msg demo_subscribed))
    = [Ok demo_frame]
  ∧ writes_to 3 (wire (notifyClients demo_order demo_msg demo_subscribed))
    = [].
Proof.
  pose proof (demo_order_visits demo_subscribed demo_subscribed_r1) as Hv.
  destruct (notifyClients_room_scoped demo_subscribed demo_msg demo_order Hv)
    as (Hcalls & _).
  split_and!; [exact Hv|..]; rewrite Hcalls; vm_compute; reflexivity.
Defined.

(** The same publish when A's transport fails: A is cancelled and stays
    registered, B still gets the event. *)
Lemma notifyClients_write_failure_witness :
  subscribers demo_A_broken !! RoomID demo_msg = Some demo_r1
  ∧ range_visits demo_r1 demo_order
  ∧ demo_r1 !! 1%positive = Some 1%positive
  ∧ write_outcome (broken demo_A_broken) 1 demo_msg
    = Err (ErrorString "write: connection closed")
  ∧ 1%positive ∈ ctx_done (notifyClients demo_order demo_msg demo_A_broken)
  ∧ subscribers (notifyClients demo_order demo_msg demo_A_broken)
    = subscribers demo_A_broken
  ∧ writes_to 2 (wire (notifyClients demo_order demo_msg demo_A_broken))
    = [Ok demo_frame].
Proof.
  assert (range_visits demo_r1 demo_order) as Hv.
  { unfold range_visits. vm_compute. reflexivity. }
  assert (demo_r1 !! 1%positive = Some 1%positive) as Hc.
  { vm_compute. reflexivity. }
  assert (write_outcome (broken demo_A_broken) 1 demo_msg
          = Err (ErrorString "write: connection closed")) as He.
  { vm_compute. reflexivity. }
  destruct (notifyClients_write_failure demo_A_broken demo_msg demo_order
              demo_r1 1 1 _ demo_A_broken_r1 Hv Hc He)
    as (_ & Hcancel & Hsubs & Hcalls & _).
  split_and!; [exact demo_A_broken_r1|exact Hv|exact Hc|exact He
              |exact Hcancel|exact Hsubs|].
  rewrite Hcalls; [vm_compute; reflexivity|].
  vm_compute. eexists. reflexivity.
Defined.

(** The frame B received in the run is the [message_created] envelope. *)
Lemma wire_envelope_witness :
  reachable demo_db demo_first
  ∧ (2%positive, Ok demo_frame) ∈ wire demo_first
  ∧ wire_form demo_frame.
Proof.
  assert ((2%positive, Ok demo_frame) ∈ wire demo_first) as Hin.
  { vm_compute. apply list_elem_of_here. }
  split_and!; [exact demo_first_reachable|exact Hin|].
  exact (proj1 (wire_envelope demo_db demo_first 2 demo_frame
                  demo_first_reachable Hin)).
Defined.

Lemma demo_third_later :
  later (handleSubscribe_resume demo_A demo_second) demo_third.
Proof.
  eapply later_step; [eapply later_step; [apply later_refl|]|].
  - apply (demo_serve_step POST_messages "r1" "10.0.0.9").
  - apply (step_notify demo_msg demo_order_B [] [] demo_reposted).
    + vm_compute. reflexivity.
    + unfold range_visits. vm_compute. reflexivity.
Qed.

(** A is cancelled and still parked after the second publish: a publish
    for r1 at that point makes a third call on A's connection. Once A's
    handler has woken up, a message is posted to r1 and published: B is
    delivered it, and no call is made on A's connection. *)
Lemma deregistered_subscriber_gone_witness :
  reachable demo_db demo_second
  ∧ demo_A ∈ waiting demo_second
  ∧ sub_cancel demo_A ∈ ctx_done demo_second
  ∧ writes_to 1 (wire (notifyClients demo_order demo_msg demo_second))
    = writes_to 1 (wire demo_second)
      ++ [Err (ErrorString "write: connection closed")]
  ∧ later (handleSubscribe_resume demo_A demo_second) demo_third
  ∧ (∀ room set, subscribers demo_third !! room = Some set →
       set !! sub_conn demo_A = None)
  ∧ writes_to 1 (wire demo_third) = writes_to 1 (wire demo_second)
  ∧ writes_to 2 (wire demo_third)
    = writes_to 2 (wire demo_second) ++ [Ok demo_frame].
Proof.
  assert (demo_A ∈ waiting demo_second) as Hw.
  { vm_compute. apply list_elem_of_here. }
  assert (sub_cancel demo_A ∈ ctx_done demo_second) as Hd.
  { apply (bool_decide_unpack _). vm_compute. exact I. }
  destruct (deregistered_subscriber_gone demo_db demo_second demo_A
              demo_second_reachable Hw Hd) as ((_ & Hwindow) & Hgone).
  destruct (Hwindow demo_msg demo_order eq_refl) as (Hcall & _).
  { unfold range_visits. vm_compute. reflexivity. }
  destruct (Hgone demo_third demo_third_later) as (Hout & Hwire & _).
  split_and!; [exact demo_second_reachable|exact Hw|exact Hd|exact Hcall
              |exact demo_third_later|exact Hout|exact Hwire|].
  vm_compute. reflexivity.
Defined.

(** Removing a handle that is not in the room's set changes nothing. *)
Lemma deregister_idempotent_witness :
  deregister "r1" 3 (subscribers demo_subscribed)
  = subscribers demo_subscribed.
Proof.
  destruct (deregister_idempotent "r1" 3 (subscribers demo_subscribed))
    as (_ & _ & Habsent & _).
  apply (Habsent demo_r1); [exact demo_subscribed_r1|].
  vm_compute. reflexivity.
Defined.

(** When C, the only subscriber of r2, leaves, r2 keeps an empty set. *)
Lemma room_entries_persist_witness :
  subscribers demo_subscribed !! "r2" = Some {[3%positive := 3%positive]}
  ∧ subscribers (handleSubscribe_resume demo_C demo_subscribed) !! "r2"
    = Some ∅.
Proof.
  assert (subscribers demo_subscribed !! "r2"
          = Some {[3%positive := 3%positive]}) as Hr2.
  { vm_compute. reflexivity. }
  destruct (room_entries_persist (H0 := demo_store) "r2")
    as (_ & _ & _ & _ & _ & _ & Hlast).
  split; [exact Hr2|]. exact (Hlast demo_subscribed demo_C eq_refl Hr2).
Defined.

(** A subscribe request for a room the store does not have. *)
Lemma handleSubscribe_rejected_witness :
  (∃ id e, uuid_Parse (URLParam demo_unknown_room "room_id") = Ok id ∧
           GetRoom (db demo_subscribed) id = Err e)
  ∧ subscribers (handleSubscribe demo_subscribed NewResponseWriter
                   demo_unknown_room).1
    = subscribers demo_subscribed
  ∧ next_conn (handleSubscribe demo_subscribed NewResponseWriter
                 demo_unknown_room).1
    = next_conn demo_subscribed.
Proof.
  assert (∃ id e, uuid_Parse (URLParam demo_unknown_room "room_id") = Ok id ∧
                  GetRoom (db demo_subscribed) id = Err e) as Hbad.
  { exists "r9", ErrNoRows. split; vm_compute; reflexivity. }
  destruct (handleSubscribe_rejected demo_subscribed NewResponseWriter
              demo_unknown_room (or_intror Hbad))
    as (_ & Hsubs & _ & Hconn & _).
  split_and!; [exact Hbad|exact Hsubs|exact Hconn].
Defined.

(** Reacting to a message of a room whose only subscriber has a broken
    transport: the room and the message are found and the store counts the
    reaction, so the answer is 200 with the count, the publish is queued,
    and nothing has been written to the subscriber. *)
Lemma producers_fire_and_forget_witness :
  is_producer PATCH_react = true
  ∧ @uuid_Parse uuid_libs (URLParam (uuid_request "10.0.0.9") "room_id")
    = Ok uuid_room
  ∧ @GetRoom uuid_libs uuid_store (db uuid_subscribed) uuid_room
    = Ok uuid_room
  ∧ @ReactToMessage uuid_libs uuid_store (db uuid_subscribed) uuid_message
    = (db uuid_subscribed, Ok int64_1)
  ∧ same_hub uuid_subscribed
      (ServeHTTP PATCH_react uuid_subscribed NewResponseWriter
         (uuid_request "10.0.0.9")).1
  ∧ Status (ServeHTTP PATCH_react uuid_subscribed NewResponseWriter
              (uuid_request "10.0.0.9")).2 = Some StatusOK
  ∧ Body (ServeHTTP PATCH_react uuid_subscribed NewResponseWriter
            (uuid_request "10.0.0.9")).2
    = @json_encode uuid_libs (JObject [("count", JNumber 1)])
  ∧ goroutines (ServeHTTP PATCH_react uuid_subscribed NewResponseWriter
                  (uuid_request "10.0.0.9")).1 = [uuid_event]
  ∧ wire (ServeHTTP PATCH_react uuid_subscribed NewResponseWriter
            (uuid_request "10.0.0.9")).1 = [].
Proof.
  assert (@uuid_Parse uuid_libs (URLParam (uuid_request "10.0.0.9") "room_id")
          = Ok uuid_room) as Hid by (vm_compute; reflexivity).
  assert (@GetRoom uuid_libs uuid_store (db uuid_subscribed) uuid_room
          = Ok uuid_room) as Hroom by (vm_compute; reflexivity).
  assert (@uuid_Parse uuid_libs
            (URLParam (uuid_request "10.0.0.9") "message_id")
          = Ok uuid_message) as Hmid by (vm_compute; reflexivity).
  assert (@GetMessage uuid_libs uuid_store (db uuid_subscribed) uuid_message
          = Ok uuid_message) as Hmsg by reflexivity.
  assert (@ReactToMessage uuid_libs uuid_store (db uuid_subscribed)
            uuid_message = (db uuid_subscribed, Ok int64_1))
    as Hstore by reflexivity.
  destruct (producers_fire_and_forget PATCH_react uuid_subscribed
              (uuid_request "10.0.0.9") eq_refl)
    as (Hhub & _ & _ & _ & Hsuccess).
  destruct (Hsuccess uuid_room uuid_room Hid Hroom uuid_message uuid_message
              (db uuid_subscribed) int64_1 Hmid Hmsg Hstore)
    as (Hst & Hbody & _ & Hgo).
  split_and!; [reflexivity|exact Hid|exact Hroom|exact Hstore|exact Hhub
              |exact Hst|exact Hbody|exact Hgo|].
  destruct Hhub as (_ & _ & _ & -> & _). vm_compute. reflexivity.
Defined.

(** Listing the rooms of a store that has none. *)
Lemma list_handlers_empty_array_witness :
  GetRooms (db demo_empty) = Ok nil_slice
  ∧ Body (handleGetRooms demo_empty NewResponseWriter
            (demo_request "" "10.0.0.1")).2
    = "[]".
Proof.
  assert (GetRooms (db demo_empty) = Ok nil_slice) as Hnil by reflexivity.
  destruct (list_handlers_empty_array demo_empty NewResponseWriter
              (demo_request "" "10.0.0.1")) as (Hrooms & _).
  split; [exact Hnil|]. exact (proj2 (Hrooms Hnil)).
Defined.

(** Sending a channel: no byte is written and the status is 200. *)
Lemma sendJSON_discards_errors_witness :
  Body (@sendJSON demo_libs chan chan_Marshaler NewResponseWriter Chan) = ""
  ∧ Status (@sendJSON demo_libs chan chan_Marshaler NewResponseWriter Chan)
    = Some StatusOK.
Proof.
  destruct (@sendJSON_discards_errors demo_libs chan chan_Marshaler
              NewResponseWriter Chan) as (_ & _ & _ & _ & Herr).
  destruct (Herr _ eq_refl) as [Hbody Hstatus].
  split; [exact Hbody|exact (Hstatus eq_refl)].
Defined.

End Run.

(** * Further properties of the package *)

(** ** The registry: insert, look up, remove *)

Section RegistryRoundTrip.
Implicit Types (subs : gmap string (gmap Conn CancelFunc)).
Implicit Types (room : string) (c : Conn) (cancel : CancelFunc).

(** X1. What the first critical section of [handleSubscribe] does to the
    registry: afterwards the handle is in the room's set with its cancel
    function, the other handles of the room and all other rooms are as
    before, and a handle already there gets the new cancel function.
    Deregistering the handle again gives back the registry with the room's
    entry made: the registry itself when the room had an entry. *)
Theorem register_deregister_round_trip room c cancel subs :
  register room c cancel subs !! room ≫= (.!! c) = Some cancel
  ∧ (∀ c', c' ≠ c →
       register room c cancel subs !! room ≫= (.!! c')
       = subs !! room ≫= (.!! c'))
  ∧ (∀ room', room' ≠ room →
       register room c cancel subs !! room' = subs !! room')
  ∧ (∀ cancel', register room c cancel (register room c cancel' subs)
                = register room c cancel subs)
  ∧ (subs !! room ≫= (.!! c) = None →
       deregister room c (register room c cancel subs)
       = ensure_room room subs)
  ∧ (is_Some (subs !! room) → subs !! room ≫= (.!! c) = None →
       deregister room c (register room c cancel subs) = subs).
Proof.
  assert (∀ cancel', register room c cancel (register room c cancel' subs)
                     = register room c cancel subs) as Hagain.
  { intros cancel'. apply map_eq. intros r. rewrite !lookup_register.
    case_decide as Hr; [|done].
    rewrite decide_True by done. simpl.
    by rewrite insert_insert_eq. }
  assert (subs !! room ≫= (.!! c) = None →
          deregister room c (register room c cancel subs)
          = ensure_room room subs) as Hback.
  { intros Hfresh. apply map_eq. intros r.
    rewrite lookup_deregister, !lookup_register, lookup_ensure_room.
    case_decide as Hr; [|done].
    rewrite decide_True by done. simpl. f_equal.
    rewrite delete_insert_eq. apply delete_id.
    destruct (subs !! room) as [set|]; [done|apply lookup_empty]. }
  split_and!; try done.
  - rewrite lookup_register, decide_True by done. simpl.
    apply lookup_insert_eq.
  - intros c' Hc'. rewrite lookup_register, decide_True by done. simpl.
    rewrite lookup_insert_ne by done.
    destruct (subs !! room) as [set|]; [done|apply lookup_empty].
  - intros room' Hroom'. by rewrite lookup_register, decide_False.
  - intros [set Hset] Hfresh. rewrite Hback by done.
    unfold ensure_room. by rewrite Hset.
Qed.

End RegistryRoundTrip.

(** ** More on publishing *)

Section PublishMore.
Context `{Pgstore}.
Implicit Types (w : World) (msg : Message) (c : Conn).
Implicit Types (order : list (Conn * CancelFunc)).
Implicit Types (set : gmap Conn CancelFunc).

(** X2. The order in which [range] visits the room's set does not matter
    for what a publish does: two runs of the same publish cancel the same
    subscribers, make the same calls on every connection, and differ at
    most in the order of the calls and of the log lines. *)
Theorem notifyClients_any_order w msg order1 order2 :
  range_visits (default ∅ (subscribers w !! RoomID msg)) order1 →
  range_visits (default ∅ (subscribers w !! RoomID msg)) order2 →
  let w1 := notifyClients order1 msg w in
  let w2 := notifyClients order2 msg w in
  ctx_done w1 = ctx_done w2
  ∧ (∀ c, writes_to c (wire w1) = writes_to c (wire w2))
  ∧ wire w1 ≡ₚ wire w2
  ∧ logs w1 ≡ₚ logs w2
  ∧ subscribers w1 = subscribers w2 ∧ db w1 = db w2
  ∧ goroutines w1 = goroutines w2 ∧ waiting w1 = waiting w2.
Proof.
  intros Hv1 Hv2 w1 w2.
  assert (order1 ≡ₚ order2) as Hperm.
  { unfold range_visits in *. by rewrite Hv1, Hv2. }
  assert (w1 = range_subscribers msg order1 w) as ->
    by by apply notifyClients_loop.
  assert (w2 = range_subscribers msg order2 w) as ->
    by by apply notifyClients_loop.
  destruct (range_subscribers_frame msg order1 w)
    as (-> & -> & _ & -> & -> & _).
  destruct (range_subscribers_frame msg order2 w)
    as (-> & -> & _ & -> & -> & _).
  split_and!; try done.
  - apply set_eq. intros k. rewrite !range_subscribers_ctx_done.
    by setoid_rewrite Hperm.
  - intros c. rewrite <- !notifyClients_loop by done.
    by rewrite !notifyClients_writes_to.
  - rewrite !range_subscribers_wire. by rewrite Hperm.
  - rewrite !range_subscribers_logs. by rewrite Hperm.
Qed.

(** X3. When the event has an encoding and no transport of the room is
    broken, a publish only writes: every subscriber of the room is
    delivered the document, nobody is cancelled and nothing is logged. *)
Theorem notifyClients_all_delivered w msg order j :
  range_visits (default ∅ (subscribers w !! RoomID msg)) order →
  MarshalJSON msg = Ok j →
  (∀ c, is_Some (default ∅ (subscribers w !! RoomID msg) !! c) →
        c ∉ broken w) →
  let w' := notifyClients order msg w in
  wire w' = wire w ++ ((λ x, (x.1, Ok j)) <$> order)
  ∧ ctx_done w' = ctx_done w
  ∧ logs w' = logs w.
Proof.
  intros Hv Hj Hgood w'. subst w'. rewrite notifyClients_loop by done.
  assert (∀ x, x ∈ order → write_outcome (broken w) x.1 msg = Ok j) as Hok.
  { intros [c k] Hin. simpl. unfold write_outcome.
    rewrite decide_False; [done|]. apply Hgood.
    exists k. by apply (range_visits_elem _ order). }
  split_and!.
  - rewrite range_subscribers_wire. f_equal.
    apply Forall_fmap_ext_1, Forall_forall.
    intros x Hin. by rewrite Hok.
  - apply set_eq. intros k. rewrite range_subscribers_ctx_done.
    split; [|by left]. intros [?|(c & e & Hin & He)]; [done|].
    specialize (Hok _ Hin). simpl in Hok. congruence.
  - rewrite range_subscribers_logs.
    match goal with
    | |- logs w ++ ?l = logs w => assert (l = []) as ->
    end; [|by rewrite app_nil_r].
    apply elem_of_nil_inv. intros entry (x & Hin & Hx)%list_elem_of_omap.
    by rewrite Hok in Hx.
Qed.

(** X4. When the event has no encoding, every [WriteJSON] call of the
    publish returns an error, the encoder's own on a working transport:
    the publish logs a failure for, and cancels, every subscriber of the
    room, though their transports may all be working, and leaves the
    registry as it was. *)
Theorem notifyClients_unencodable w msg order set e :
  subscribers w !! RoomID msg = Some set →
  range_visits set order →
  MarshalJSON msg = Err e →
  let w' := notifyClients order msg w in
  (∀ c cancel, set !! c = Some cancel →
     cancel ∈ ctx_done w'
     ∧ ∃ e', writes_to c (wire w') = writes_to c (wire w) ++ [Err e']
             ∧ failure_log e' ∈ logs w'
             ∧ (c ∉ broken w → e' = e))
  ∧ subscribers w' = subscribers w.
Proof.
  intros Hset Hv He w'. subst w'.
  assert (range_visits (default ∅ (subscribers w !! RoomID msg)) order)
    as Hv' by by rewrite Hset.
  assert (∀ c, ∃ e', write_outcome (broken w) c msg = Err e'
                     ∧ (c ∉ broken w → e' = e)) as Hfail.
  { intros c. unfold write_outcome. rewrite He.
    case_decide; eexists; (split; [done|]); done. }
  split; [|by destruct (notifyClients_frame order msg w) as (_ & -> & _)].
  intros c cancel Hc. destruct (Hfail c) as (e' & He' & Hgood).
  assert ((c, cancel) ∈ order) as Hin by by apply (range_visits_elem set).
  split.
  - rewrite notifyClients_loop by done.
    apply range_subscribers_ctx_done. right. by exists c, e'.
  - exists e'. split_and!; [| |done].
    + rewrite notifyClients_writes_to by done.
      rewrite Hset. simpl. rewrite decide_True by by eexists.
      by rewrite He'.
    + rewrite notifyClients_loop by done.
      rewrite range_subscribers_logs. apply elem_of_app. right.
      apply list_elem_of_omap. exists (c, cancel). split; [done|].
      simpl. by rewrite He'.
Qed.

End PublishMore.

(** ** More on subscribing *)

Section SubscribeMore.
Context `{Pgstore}.
Implicit Types (w : World) (rw : ResponseWriter) (r : Request).
Implicit Types (s : Subscription) (c : Conn).

(** X5. When the room exists but the upgrader refuses the handshake,
    [handleSubscribe] logs one warning and answers through [http.Error]
    with status 400 on top of what the upgrader wrote; a status the
    upgrader has already written stays. No connection object or context is
    made, nothing is registered and nothing parked. *)
Theorem handleSubscribe_upgrade_failed w rw r id room rw1 err :
  uuid_Parse (URLParam r "room_id") = Ok id →
  GetRoom (db w) id = Ok room →
  ws_Upgrade rw r = (rw1, Some err) →
  let w' := (handleSubscribe w rw r).1 in
  let rw' := (handleSubscribe w rw r).2 in
  same_hub w w'
  ∧ db w' = db w ∧ goroutines w' = goroutines w
  ∧ logs w' = logs w ++ [{| log_level := LevelWarn;
                            log_msg := "failed to upgrade connection";
                            log_attrs := [("error", error_text err)] |}]
  ∧ rw' = http_Error rw1 "failed to upgrade to ws connection"
            StatusBadRequest
  ∧ Status rw' = Some (default StatusBadRequest (Status rw1)).
Proof.
  intros Hid Hroom Hup w' rw'. subst w' rw'.
  unfold handleSubscribe, readRoom. rewrite Hid, Hroom. simpl.
  rewrite Hup. simpl. split_and!; try done.
  unfold WriteHeader. simpl.
  destruct (Status rw1) as [code|] eqn:Hcode; simpl; by rewrite ?Hcode.
Qed.

Lemma handleSubscribe_accepted w rw r id room :
  uuid_Parse (URLParam r "room_id") = Ok id →
  GetRoom (db w) id = Ok room →
  (ws_Upgrade rw r).2 = None →
  let w' := (handleSubscribe w rw r).1 in
  subscribers w'
  = register (URLParam r "room_id") (next_conn w) (next_ctx w)
      (subscribers w)
  ∧ waiting w'
    = waiting w ++ [{| sub_room := URLParam r "room_id";
                       sub_conn := next_conn w;
                       sub_cancel := next_ctx w |}]
  ∧ wire w' = wire w ∧ broken w' = broken w ∧ ctx_done w' = ctx_done w.
Proof.
  intros Hid Hroom Hup w'. subst w'.
  unfold handleSubscribe, readRoom. rewrite Hid, Hroom. simpl.
  destruct (ws_Upgrade rw r) as [rw1 [err|]]; [done|]. by simpl.
Qed.

Lemma sub_cancel_inj_on (l : list Subscription) s1 s2 :
  NoDup (sub_cancel <$> l) → s1 ∈ l → s2 ∈ l →
  sub_cancel s1 = sub_cancel s2 → s1 = s2.
Proof.
  induction l as [|s l IH]; [by intros _ ?%elem_of_nil|].
  rewrite fmap_cons, NoDup_cons. intros [Hfresh Hnd].
  rewrite !elem_of_cons. intros [->|H1] [->|H2] Heq; [done|..].
  - destruct Hfresh. rewrite Heq. by apply list_elem_of_fmap_2.
  - destruct Hfresh. rewrite <- Heq. by apply list_elem_of_fmap_2.
  - by apply IH.
Qed.

(** every parked call has a cancel function of its own *)
Lemma reachable_cancels d w :
  reachable d w →
  (∀ s, s ∈ waiting w → (sub_cancel s < next_ctx w)%positive)
  ∧ NoDup (sub_cancel <$> waiting w).
Proof.
  induction 1 as [|w ev w' _ [IHlt IHnd] Hstep].
  - split; [by intros s ?%elem_of_nil|constructor].
  - destruct Hstep as [rt r w| s w Hs| s w Hs Hdone
      | msg order before after w Hgo Horder| c w]; try done.
    + assert (same_hub w (ServeHTTP rt w NewResponseWriter r).1 ∨
              (waiting (ServeHTTP rt w NewResponseWriter r).1
               = waiting w ++ [{| sub_room := URLParam r "room_id";
                                  sub_conn := next_conn w;
                                  sub_cancel := next_ctx w |}] ∧
               next_ctx (ServeHTTP rt w NewResponseWriter r).1
               = Pos.succ (next_ctx w))) as [Hhub|[Hw Hn]].
      { destruct (decide (rt = GET_subscribe)) as [->|Hrt];
          [|left; by apply ServeHTTP_same_hub].
        simpl. destruct (handleSubscribe_cases w NewResponseWriter r)
          as [(Hhub & _)|(? & ? & _ & _ & _ & Hw & _ & Hn & _)];
          [by left|by right]. }
      * destruct Hhub as (_ & _ & _ & _ & -> & _ & ->). done.
      * rewrite Hw, Hn. split.
        -- intros s. rewrite elem_of_app, list_elem_of_singleton.
           intros [Hs| ->]; [specialize (IHlt s Hs)|simpl]; lia.
        -- rewrite fmap_app. apply NoDup_app.
           split_and!; [done| |apply NoDup_singleton].
           intros k (s & -> & Hs)%list_elem_of_fmap. simpl.
           rewrite list_elem_of_singleton. specialize (IHlt s Hs). lia.
    + unfold handleSubscribe_resume. simpl. split.
      * intros s'. rewrite list_elem_of_filter. intros [_ Hs']. by apply IHlt.
      * eapply sublist_NoDup; [exact IHnd|].
        apply fmap_sublist, sublist_filter.
    + destruct (notifyClients_frame order msg
                 (set_goroutines (before ++ after) w))
        as (_ & _ & _ & _ & -> & _ & ->). done.
Qed.

(** X6. In every run the registry and the parked [handleSubscribe] calls
    correspond one to one: a handle is in a room's set with a cancel
    function exactly when a call for that room, handle and cancel function
    is parked; no connection object and no cancel function belongs to two
    parked calls. *)
Theorem registry_matches_parked d w :
  reachable d w →
  (∀ room c cancel,
     subscribers w !! room ≫= (.!! c) = Some cancel ↔
     {| sub_room := room; sub_conn := c; sub_cancel := cancel |} ∈ waiting w)
  ∧ NoDup (sub_conn <$> waiting w)
  ∧ NoDup (sub_cancel <$> waiting w).
Proof.
  intros Hreach.
  destruct (reachable_registry_inv d w Hreach) as [Hparked Hreg _ Hnd].
  split_and!; [|done|by apply (reachable_cancels d)].
  intros room c cancel. rewrite bind_Some. split.
  - intros (set & Hset & Hc). by eapply Hparked.
  - intros Hs. by apply (Hreg _ Hs).
Qed.

(** X7. In a run a failed write touches its own subscriber only: a
    subscriber of the room whose write went through, and whose context
    was not done before the publish, is not cancelled by it. *)
Theorem notifyClients_failure_isolated d w msg order set c cancel j :
  reachable d w →
  subscribers w !! RoomID msg = Some set →
  range_visits set order →
  set !! c = Some cancel →
  write_outcome (broken w) c msg = Ok j →
  cancel ∉ ctx_done w →
  cancel ∉ ctx_done (notifyClients order msg w).
Proof.
  intros Hreach Hset Hv Hc Hok Hnot.
  assert (range_visits (default ∅ (subscribers w !! RoomID msg)) order)
    as Hv' by by rewrite Hset.
  rewrite notifyClients_loop by done.
  intros [?|(c' & e & Hin & He)]%range_subscribers_ctx_done; [done|].
  apply (range_visits_elem set order) in Hin; [|done].
  destruct (reachable_registry_inv d w Hreach) as [Hparked _ _ _].
  destruct (reachable_cancels d w Hreach) as [_ Hnd].
  pose proof (Hparked _ _ _ _ Hset Hc) as H1.
  pose proof (Hparked _ _ _ _ Hset Hin) as H2.
  pose proof (sub_cancel_inj_on _ _ _ Hnd H1 H2 eq_refl) as [= ->].
  congruence.
Qed.

End SubscribeMore.

(** ** Connections over a run *)

Section Connections.
Context `{Pgstore}.
Implicit Types (w : World) (rw : ResponseWriter) (r : Request).
Implicit Types (s : Subscription) (c : Conn).

Lemma writes_to_absent c (l : list (Conn * result json)) :
  (∀ outcome, (c, outcome) ∉ l) → writes_to c l = [].
Proof.
  unfold writes_to. induction l as [|[c' o] l IH]; [done|].
  intros Habsent. rewrite filter_cons. simpl.
  destruct (decide (c' = c)) as [->|Hne].
  - destruct (Habsent o). apply list_elem_of_here.
  - apply IH. intros o' Hin. apply (Habsent o').
    by apply list_elem_of_further.
Qed.

(** a call is only made on a connection that has been handed out *)
Lemma reachable_wire_allocated d w c outcome :
  reachable d w → (c, outcome) ∈ wire w → (c < next_conn w)%positive.
Proof.
  intros Hreach. revert c outcome.
  induction Hreach as [|w ev w' Hreach IH Hstep].
  - by intros c o ?%elem_of_nil.
  - pose proof (reachable_registry_inv d w Hreach) as Hinv.
    destruct Hstep as [rt r w| s w Hs| s w Hs Hdone
      | msg order before after w Hgo Horder| c' w]; try done.
    + intros c o. rewrite ServeHTTP_wire. intros Hin.
      specialize (IH c o Hin).
      destruct (decide (rt = GET_subscribe)) as [->|Hrt].
      * simpl. destruct (handleSubscribe_cases w NewResponseWriter r)
          as [((_ & _ & _ & _ & _ & -> & _) & _)
             |(? & ? & _ & _ & _ & _ & -> & _)]; lia.
      * by destruct (ServeHTTP_same_hub rt w NewResponseWriter r Hrt)
          as (_ & _ & _ & _ & _ & -> & _).
    + destruct (notifyClients_frame order msg
                 (set_goroutines (before ++ after) w))
        as (_ & _ & _ & _ & _ & -> & _).
      rewrite notifyClients_loop by done.
      intros c o. rewrite range_subscribers_wire. simpl.
      rewrite elem_of_app. intros [?|Hin]; [by eapply IH|].
      apply list_elem_of_fmap in Hin as ([c0 k] & [= -> _] & Hin).
      simpl. apply (elem_of_Permutation_proper _ _ _ Horder) in Hin.
      apply elem_of_map_to_list in Hin.
      destruct (subscribers w !! RoomID msg) as [set|] eqn:Hset;
        simpl in Hin; [|by rewrite lookup_empty in Hin].
      apply (inv_allocated w Hinv
               {| sub_room := RoomID msg; sub_conn := c0; sub_cancel := k |}).
      by eapply (inv_parked w Hinv).
Qed.

(** X8. In every run a [WriteJSON] call is only ever made on a connection
    that [handleSubscribe] has made, and every connection made is either
    still held by a parked [handleSubscribe] call or among the connections
    on which a write fails, where the deferred [c.Close()] puts it: no
    connection is left open after its handler has gone. *)
Theorem connections_accounted d w :
  reachable d w →
  (∀ c outcome, (c, outcome) ∈ wire w → (c < next_conn w)%positive)
  ∧ (∀ c, (c < next_conn w)%positive →
       c ∈ sub_conn <$> waiting w ∨ c ∈ broken w).
Proof.
  intros Hreach. split; [intros c o; by apply (reachable_wire_allocated d)|].
  induction Hreach as [|w ev w' Hreach IHconn Hstep].
  - simpl. intros c. lia.
  - destruct Hstep as [rt r w| s w Hs| s w Hs Hdone
      | msg order before after w Hgo Horder| c' w]; try done.
    + assert (same_hub w (ServeHTTP rt w NewResponseWriter r).1 ∨
              (waiting (ServeHTTP rt w NewResponseWriter r).1
               = waiting w ++ [{| sub_room := URLParam r "room_id";
                                  sub_conn := next_conn w;
                                  sub_cancel := next_ctx w |}] ∧
               next_conn (ServeHTTP rt w NewResponseWriter r).1
               = Pos.succ (next_conn w) ∧
               broken (ServeHTTP rt w NewResponseWriter r).1 = broken w))
        as [Hhub|(Hw & Hn & Hb)].
      { destruct (decide (rt = GET_subscribe)) as [->|Hrt];
          [|left; by apply ServeHTTP_same_hub].
        simpl. destruct (handleSubscribe_cases w NewResponseWriter r)
          as [(Hhub & _)|(? & ? & _ & _ & _ & Hw & Hn & _ & _ & Hb & _)];
          [by left|by right]. }
      * destruct Hhub as (_ & _ & -> & _ & -> & -> & _). done.
      * rewrite Hw, Hn, Hb.
        intros c Hlt. rewrite fmap_app, elem_of_app. simpl.
        destruct (decide (c = next_conn w)) as [->|Hne].
        -- left. right. apply list_elem_of_here.
        -- destruct (IHconn c) as [?|?]; [lia|by left; left|by right].
    + unfold handleSubscribe_resume. simpl.
      intros c Hlt. rewrite elem_of_union, elem_of_singleton.
      destruct (IHconn c Hlt) as [(s' & -> & Hs')%list_elem_of_fmap|?];
        [|by right; right].
      destruct (decide (s' = s)) as [->|Hne]; [by right; left|].
      left. apply list_elem_of_fmap_2. by apply list_elem_of_filter.
    + by destruct (notifyClients_frame order msg
                     (set_goroutines (before ++ after) w))
        as (_ & _ & -> & _ & -> & -> & _).
    + simpl. intros c Hlt.
      rewrite elem_of_union. destruct (IHconn c Hlt); [by left|by right; right].
Qed.

(** X9. The teardown of one subscriber leaves the others alone. When a
    parked [handleSubscribe] call wakes up in a run, its handle leaves the
    registry, its connection is closed and the call is no longer parked;
    every other parked call stays parked and registered with its cancel
    function; no context is cancelled and nothing is written or logged. *)
Theorem handleSubscribe_resume_isolated d w s :
  reachable d w →
  s ∈ waiting w →
  let w' := handleSubscribe_resume s w in
  (s ∉ waiting w')
  ∧ sub_conn s ∈ broken w'
  ∧ (∀ room, subscribers w' !! room ≫= (.!! sub_conn s) = None)
  ∧ (∀ s', s' ∈ waiting w → s' ≠ s →
       s' ∈ waiting w' ∧
       (subscribers w' !! sub_room s' ≫= (.!! sub_conn s'))
       = Some (sub_cancel s'))
  ∧ ctx_done w' = ctx_done w ∧ wire w' = wire w ∧ logs w' = logs w
  ∧ db w' = db w ∧ goroutines w' = goroutines w.
Proof.
  intros Hreach Hs w'.
  pose proof (reachable_registry_inv d w Hreach) as Hinv.
  pose proof (registry_inv_resume w s Hinv Hs) as Hinv'.
  destruct (resume_unregistered w s Hinv Hs) as [_ Hout].
  split_and!; try done.
  - subst w'. unfold handleSubscribe_resume. simpl.
    rewrite list_elem_of_filter. by intros [? _].
  - subst w'. unfold handleSubscribe_resume. simpl.
    apply elem_of_union. left. by apply elem_of_singleton.
  - intros room. apply bind_None.
    destruct (subscribers w' !! room) as [set|] eqn:Hset; [|by left].
    right. exists set. split; [done|]. by apply (Hout room).
  - intros s' Hs' Hne.
    assert (s' ∈ waiting w') as Hin.
    { subst w'. unfold handleSubscribe_resume. simpl.
      by apply list_elem_of_filter. }
    split; [done|].
    destruct (inv_registered w' Hinv' s' Hin) as (set & -> & Hc). done.
Qed.

(** X10. Subscribing and then publishing. When a subscribe request is
    accepted in a run, the new handle is registered under the room of the
    request with a new cancel function, no call has been made on its
    connection yet, and a publish for that room makes exactly one
    [WriteJSON] call on it: the event's document, when the event has an
    encoding and the transport works. *)
Theorem subscribe_then_publish d w rw r id room msg order :
  reachable d w →
  uuid_Parse (URLParam r "room_id") = Ok id →
  GetRoom (db w) id = Ok room →
  (ws_Upgrade rw r).2 = None →
  RoomID msg = URLParam r "room_id" →
  range_visits
    (default ∅ (subscribers (handleSubscribe w rw r).1 !! RoomID msg))
    order →
  let w1 := (handleSubscribe w rw r).1 in
  let c := next_conn w in
  subscribers w1 !! RoomID msg ≫= (.!! c) = Some (next_ctx w)
  ∧ writes_to c (wire w1) = []
  ∧ writes_to c (wire (notifyClients order msg w1))
    = [write_outcome (broken w) c msg]
  ∧ (∀ j, MarshalJSON msg = Ok j → c ∉ broken w →
       writes_to c (wire (notifyClients order msg w1)) = [Ok j]).
Proof.
  intros Hreach Hid Hroom Hup Hmsg Hv w1 c.
  destruct (handleSubscribe_accepted w rw r id room Hid Hroom Hup)
    as (Hsubs & _ & Hwire & Hbroken & _).
  fold w1 in Hsubs, Hwire, Hbroken, Hv.
  assert (subscribers w1 !! RoomID msg ≫= (.!! c) = Some (next_ctx w))
    as Hreg.
  { rewrite Hsubs, Hmsg, lookup_register, decide_True by done. simpl.
    apply lookup_insert_eq. }
  assert (writes_to c (wire w1) = []) as Hnone.
  { rewrite Hwire. apply writes_to_absent. intros o Hin.
    pose proof (reachable_wire_allocated d w _ _ Hreach Hin). subst c. lia. }
  assert (writes_to c (wire (notifyClients order msg w1))
          = [write_outcome (broken w) c msg]) as Hone.
  { rewrite notifyClients_writes_to, Hnone, Hbroken by done.
    rewrite decide_True; [done|].
    apply bind_Some in Hreg as (set & -> & Hc). by eexists. }
  split_and!; try done.
  intros j Hj Hgood. rewrite Hone. unfold write_outcome.
  by rewrite decide_False, Hj.
Qed.

End Connections.

(** ** What the handlers answer *)

Section Answers.
Context `{Pgstore}.
Implicit Types (w : World) (rw : ResponseWriter) (r : Request).

Local Ltac handler_case :=
  match goal with
  | |- context [match ?x with _ => _ end] =>
      lazymatch x with
      | context [match _ with _ => _ end] => fail
      | _ => destruct x eqn:?; cbn beta iota zeta
      end
  end.
Local Ltac handler_cases := cbn beta iota zeta; repeat handler_case.
Local Ltac unfold_handlers :=
  unfold ServeHTTP;
  unfold handleSubscribe, handleCreateRoom, handleGetRooms,
    handleCreateRoomMessage, handleGetRoomMessages, handleGetRoomMessage,
    handleAddReactToMessage, handleRemoveReactFromMessage,
    handleMarkMessageAsAnswered, readRoom, readMessage.

Lemma Header_http_Error rw text code :
  Header (http_Error rw text code) !! "Content-Type"
  = Some "text/plain; charset=utf-8"
  ∧ Header (http_Error rw text code) !! "X-Content-Type-Options"
    = Some "nosniff".
Proof.
  unfold http_Error. rewrite Header_Write. unfold WriteHeader. simpl.
  destruct (Status rw); simpl;
    by rewrite lookup_insert_eq, lookup_insert_ne, lookup_insert_eq.
Qed.

(** X11. A request that a handler other than [handleSubscribe] answers
    with status 400 (a malformed or unknown room or message identifier, a
    body that is not the expected JSON) changes nothing: the store is not
    called to write, nothing is logged and no publish is queued. *)
Theorem bad_request_changes_nothing rt w r :
  rt ≠ GET_subscribe →
  Status (ServeHTTP rt w NewResponseWriter r).2 = Some StatusBadRequest →
  (ServeHTTP rt w NewResponseWriter r).1 = w.
Proof.
  intros Hrt. destruct rt; [done|..]; clear Hrt; unfold_handlers;
    handler_cases; simpl;
    rewrite ?Status_sendJSON, ?Status_http_Error by done;
    first [done | by intros [=]].
Qed.

(** X12. A handler other than [handleSubscribe] answers with status 500
    exactly when one of its store calls fails. It then logs one line at
    level error, with the text of that call and the error the store
    returned, queues no publish and leaves the registry and the transports
    alone. *)
Theorem server_error_is_logged rt w r :
  rt ≠ GET_subscribe →
  let w' := (ServeHTTP rt w NewResponseWriter r).1 in
  let rw' := (ServeHTTP rt w NewResponseWriter r).2 in
  (Status rw' = Some StatusInternalServerError →
     (∃ text err,
        store_failed w r rt text err ∧
        logs w' = logs w ++ [{| log_level := LevelError; log_msg := text;
                                log_attrs := [("error", error_text err)] |}])
     ∧ goroutines w' = goroutines w
     ∧ same_hub w w')
  ∧ (∀ text err,
       store_failed w r rt text err →
       Status rw' = Some StatusInternalServerError ∧
       logs w' = logs w ++ [{| log_level := LevelError; log_msg := text;
                               log_attrs := [("error", error_text err)] |}]).
Proof.
  intros Hrt w' rw'. split.
  - intros Hst. split_and!; [| |by apply ServeHTTP_same_hub].
    + subst w' rw'. revert Hst.
      destruct rt; [done|..]; clear Hrt; unfold_handlers;
        handler_cases; simpl;
        rewrite ?Status_sendJSON, ?Status_http_Error by done;
        first [ by intros [=]
              | intros _; eexists _, _; refine (conj _ eq_refl);
                econstructor; by eauto ].
    + destruct (ServeHTTP_spawns rt w r)
        as [[Hgo _]|(msg & _ & _ & _ & _ & Hok)]; [done|].
      subst rw'. rewrite Hok in Hst. by injection Hst.
  - intros text err Hfail. subst w' rw'.
    destruct Hfail; try done; unfold_handlers;
      repeat match goal with
        | Heq : _ = _ |- _ => rewrite Heq; clear Heq; cbn beta iota zeta
        end.
    all: try (destruct rt; try done; cbn beta iota zeta).
    all: repeat match goal with
        | Heq : _ = _ |- _ => rewrite Heq; clear Heq; cbn beta iota zeta
        end.
    all: simpl; by rewrite ?Status_http_Error.
Qed.

(** X13. A handler other than [handleSubscribe] always answers, with
    status 200, 400 or 500. An answer with another status than 200 is the
    plain text written by [http.Error]; an answer with status 200 is JSON,
    but for [handleMarkMessageAsAnswered], which writes the status line
    alone. *)
Theorem handlers_answer rt w r :
  rt ≠ GET_subscribe →
  let rw' := (ServeHTTP rt w NewResponseWriter r).2 in
  (Status rw' = Some StatusOK ∨ Status rw' = Some StatusBadRequest
   ∨ Status rw' = Some StatusInternalServerError)
  ∧ (Status rw' ≠ Some StatusOK →
       Header rw' !! "Content-Type" = Some "text/plain; charset=utf-8" ∧
       Header rw' !! "X-Content-Type-Options" = Some "nosniff")
  ∧ (Status rw' = Some StatusOK →
       if decide (rt = PATCH_answer)
       then Header rw' = ∅ ∧ Body rw' = ""
       else Header rw' !! "Content-Type" = Some "application/json").
Proof.
  intros Hrt rw'. subst rw'.
  destruct rt; [done|..]; clear Hrt; unfold_handlers;
    handler_cases; cbn [fst snd]; try done;
    rewrite ?Status_sendJSON, ?Status_http_Error by done;
    (split_and!;
     [ first [by left | by right; left | by right; right]
     | first [ intros Hne; by destruct Hne
             | intros _; apply Header_http_Error ]
     | first [ by intros [=]
             | intros _; first [ by rewrite Header_sendJSON, lookup_insert_eq
                               | done ] ] ]).
Qed.

(** X14. [handleGetRoomMessage] looks the message up by its identifier
    alone: once the room of the request exists, the answer is the same for
    every room, whether or not the message belongs to it. *)
Theorem handleGetRoomMessage_any_room w rw r1 r2 id1 id2 room1 room2 :
  uuid_Parse (URLParam r1 "room_id") = Ok id1 →
  GetRoom (db w) id1 = Ok room1 →
  uuid_Parse (URLParam r2 "room_id") = Ok id2 →
  GetRoom (db w) id2 = Ok room2 →
  URLParam r1 "message_id" = URLParam r2 "message_id" →
  handleGetRoomMessage w rw r1 = handleGetRoomMessage w rw r2.
Proof.
  intros Hid1 Hroom1 Hid2 Hroom2 Hmsg.
  unfold handleGetRoomMessage, readRoom, readMessage.
  by rewrite Hid1, Hroom1, Hid2, Hroom2, Hmsg.
Qed.

(** X15. What a producer tells its caller is what it tells the
    subscribers. When [handleCreateRoomMessage] answers with status 200,
    the identifier in its answer is the identifier in the event it queues,
    and the event carries the message text of the request body; when a
    reaction handler answers with status 200, the count in its answer is
    the count in the event it queues, and the event names the message by
    the identifier of the URL. *)
Theorem event_agrees_with_answer w r :
  (let w' := (ServeHTTP POST_messages w NewResponseWriter r).1 in
   let rw' := (ServeHTTP POST_messages w NewResponseWriter r).2 in
   Status rw' = Some StatusOK →
   ∃ id text,
     json_decode_field "message" (ReqBody r) = Ok text ∧
     Body rw' = json_encode (JObject [("id", JString id)]) ∧
     goroutines w'
     = goroutines w
       ++ [{| Kind := MessageCreated;
              Value := Any {| created_ID := id; created_Message := text |};
              RoomID := URLParam r "room_id" |}])
  ∧ (let w' := (ServeHTTP PATCH_react w NewResponseWriter r).1 in
     let rw' := (ServeHTTP PATCH_react w NewResponseWriter r).2 in
     Status rw' = Some StatusOK →
     ∃ count,
       Body rw'
       = json_encode (JObject [("count", JNumber (int64_val count))]) ∧
       goroutines w'
       = goroutines w
         ++ [{| Kind := MessageRactionIncreased;
                Value := Any {| increased_ID := URLParam r "message_id";
                                increased_Count := count |};
                RoomID := URLParam r "room_id" |}])
  ∧ (let w' := (ServeHTTP DELETE_react w NewResponseWriter r).1 in
     let rw' := (ServeHTTP DELETE_react w NewResponseWriter r).2 in
     Status rw' = Some StatusOK →
     ∃ count,
       Body rw'
       = json_encode (JObject [("count", JNumber (int64_val count))]) ∧
       goroutines w'
       = goroutines w
         ++ [{| Kind := MessageRactionDecreased;
                Value := Any {| decreased_ID := URLParam r "message_id";
                                decreased_Count := count |};
                RoomID := URLParam r "room_id" |}]).
Proof.
  split_and!; unfold_handlers; handler_cases; cbn [fst snd];
    rewrite ?Status_sendJSON, ?Status_http_Error by done;
    first [by intros [=] | intros _];
    eexists; repeat eexists; rewrite ?Body_sendJSON; reflexivity.
Qed.

End Answers.

(** ** The further properties at the concrete run *)

Section RunMore.

Lemma demo_A_broken_reachable : reachable demo_db demo_A_broken.
Proof.
  eapply reachable_step; [apply demo_subscribed_reachable|].
  apply step_transport_failure.
Qed.

Lemma demo_subscribed_visits :
  range_visits (default ∅ (subscribers demo_subscribed !! RoomID demo_msg))
    demo_order
  ∧ range_visits (default ∅ (subscribers demo_subscribed !! RoomID demo_msg))
      demo_order'.
Proof.
  unfold range_visits. split; vm_compute;
    first [reflexivity | apply perm_swap].
Qed.

(** Registering A again and removing it gives back the registry. *)
Lemma register_deregister_round_trip_witness :
  deregister "r2" 1 (register "r2" 1 7 (subscribers demo_subscribed))
  = subscribers demo_subscribed.
Proof.
  destruct (register_deregister_round_trip "r2" 1 7
              (subscribers demo_subscribed)) as (_ & _ & _ & _ & _ & Hback).
  apply Hback; vm_compute; [by eexists|reflexivity].
Defined.

(** The two orders over r1 give the same calls on B's connection. *)
Lemma notifyClients_any_order_witness :
  writes_to 2 (wire (notifyClients demo_order demo_msg demo_subscribed))
  = writes_to 2 (wire (notifyClients demo_order' demo_msg demo_subscribed)).
Proof.
  destruct demo_subscribed_visits as [Hv Hv'].
  destruct (notifyClients_any_order demo_subscribed demo_msg
              demo_order demo_order' Hv Hv') as (_ & Hcalls & _).
  exact (Hcalls 2%positive).
Defined.

(** With A and B healthy, the publish for r1 writes twice and cancels
    nobody. *)
Lemma notifyClients_all_delivered_witness :
  MarshalJSON demo_msg = Ok demo_frame
  ∧ wire (notifyClients demo_order demo_msg demo_subscribed)
    = [(2%positive, Ok demo_frame); (1%positive, Ok demo_frame)]
  ∧ ctx_done (notifyClients demo_order demo_msg demo_subscribed) = ∅.
Proof.
  assert (MarshalJSON demo_msg = Ok demo_frame) as Hj by reflexivity.
  assert (∀ c : positive,
            is_Some (default ∅ (subscribers demo_subscribed
                                  !! RoomID demo_msg) !! c) →
            c ∉ broken demo_subscribed) as Hgood.
  { intros c _. change (c ∉ (∅ : gset positive)). apply not_elem_of_empty. }
  destruct (notifyClients_all_delivered demo_subscribed demo_msg demo_order
              demo_frame (proj1 demo_subscribed_visits) Hj Hgood)
    as (Hwire & Hdone & _).
  split_and!; [exact Hj|by rewrite Hwire|by rewrite Hdone].
Defined.

(** Publishing a channel to r1: the call on B's connection returns the
    encoder's error, and A and B are cancelled. *)
Lemma notifyClients_unencodable_witness :
  subscribers demo_subscribed !! RoomID demo_chan_event = Some demo_r1
  ∧ range_visits demo_r1 demo_order
  ∧ MarshalJSON demo_chan_event
    = Err (ErrorString "json: unsupported type: chan int")
  ∧ 1%positive ∈ ctx_done
                   (notifyClients demo_order demo_chan_event demo_subscribed)
  ∧ 2%positive ∈ ctx_done
                   (notifyClients demo_order demo_chan_event demo_subscribed)
  ∧ writes_to 2
      (wire (notifyClients demo_order demo_chan_event demo_subscribed))
    = [Err (ErrorString "json: unsupported type: chan int")].
Proof.
  assert (range_visits demo_r1 demo_order) as Hv.
  { unfold range_visits. vm_compute. reflexivity. }
  assert (MarshalJSON demo_chan_event
          = Err (ErrorString "json: unsupported type: chan int")) as He
    by reflexivity.
  destruct (notifyClients_unencodable demo_subscribed demo_chan_event
              demo_order demo_r1 _ demo_subscribed_r1 Hv He) as (Hall & _).
  assert (demo_r1 !! 1%positive = Some 1%positive) as H1
    by (vm_compute; reflexivity).
  assert (demo_r1 !! 2%positive = Some 2%positive) as H2
    by (vm_compute; reflexivity).
  destruct (Hall 1%positive 1%positive H1) as (Hc1 & _).
  destruct (Hall 2%positive 2%positive H2)
    as (Hc2 & e' & Hcall & _ & Hsame).
  split_and!; [exact demo_subscribed_r1|exact Hv|exact He|exact Hc1
              |exact Hc2|].
  rewrite Hcall, Hsame; [vm_compute; reflexivity|].
  change (2%positive ∉ (∅ : gset positive)). apply not_elem_of_empty.
Defined.

(** A plain HTTP client asking to subscribe to r1 is refused. *)
Lemma handleSubscribe_upgrade_failed_witness :
  @uuid_Parse demo_libs (URLParam demo_request_plain "room_id") = Ok "r1"
  ∧ @GetRoom demo_libs demo_store (db demo_subscribed) "r1" = Ok "r1"
  ∧ (@ws_Upgrade demo_libs NewResponseWriter demo_request_plain).2
    = Some (ErrorString
              "websocket: the client is not using the websocket protocol")
  ∧ subscribers
      (handleSubscribe demo_subscribed NewResponseWriter demo_request_plain).1
    = subscribers demo_subscribed
  ∧ Status
      (handleSubscribe demo_subscribed NewResponseWriter demo_request_plain).2
    = Some StatusBadRequest.
Proof.
  assert (@uuid_Parse demo_libs (URLParam demo_request_plain "room_id") = Ok "r1")
    as Hid by (vm_compute; reflexivity).
  assert (@GetRoom demo_libs demo_store (db demo_subscribed) "r1" = Ok "r1")
    as Hroom by (vm_compute; reflexivity).
  destruct (handleSubscribe_upgrade_failed demo_subscribed NewResponseWriter
              demo_request_plain "r1" "r1" _ _ Hid Hroom eq_refl)
    as ((Hsubs & _) & _ & _ & _ & _ & Hst).
  split_and!; [exact Hid|exact Hroom|reflexivity|exact Hsubs|].
  rewrite Hst. vm_compute. reflexivity.
Defined.

(** In the run, B's registration and B's parked call agree. *)
Lemma registry_matches_parked_witness :
  reachable demo_db demo_second
  ∧ (subscribers demo_second !! "r1" ≫= (.!! 2%positive) = Some 2%positive ↔
     demo_B ∈ waiting demo_second).
Proof.
  split; [exact demo_second_reachable|].
  exact (proj1 (registry_matches_parked demo_db demo_second
                  demo_second_reachable) "r1" 2%positive 2%positive).
Defined.

(** With A's transport broken, the publish for r1 does not cancel B. *)
Lemma notifyClients_failure_isolated_witness :
  reachable demo_db demo_A_broken
  ∧ write_outcome (broken demo_A_broken) 2 demo_msg = Ok demo_frame
  ∧ 2%positive ∉ ctx_done (notifyClients demo_order demo_msg demo_A_broken).
Proof.
  assert (range_visits demo_r1 demo_order) as Hv.
  { unfold range_visits. vm_compute. reflexivity. }
  assert (write_outcome (broken demo_A_broken) 2 demo_msg = Ok demo_frame)
    as Hok by (vm_compute; reflexivity).
  assert (2%positive ∉ ctx_done demo_A_broken) as Hnot.
  { change (2%positive ∉ (∅ : gset positive)). apply not_elem_of_empty. }
  split_and!; [exact demo_A_broken_reachable|exact Hok|].
  apply (notifyClients_failure_isolated demo_db demo_A_broken demo_msg
           demo_order demo_r1 2 2 demo_frame demo_A_broken_reachable
           demo_A_broken_r1 Hv); [vm_compute; reflexivity|exact Hok|exact Hnot].
Defined.

(** In the run, connection 3 (C's) is still held by C's parked call. *)
Lemma connections_accounted_witness :
  reachable demo_db demo_second
  ∧ (3%positive ∈ sub_conn <$> waiting demo_second
     ∨ 3%positive ∈ broken demo_second).
Proof.
  split; [exact demo_second_reachable|].
  apply (proj2 (connections_accounted demo_db demo_second
                  demo_second_reachable)).
  vm_compute. reflexivity.
Defined.

(** When A's handler wakes up, B stays parked and registered. *)
Lemma handleSubscribe_resume_isolated_witness :
  reachable demo_db demo_second
  ∧ demo_A ∈ waiting demo_second
  ∧ (demo_A ∉ waiting demo_A_left)
  ∧ demo_B ∈ waiting demo_A_left.
Proof.
  assert (demo_A ∈ waiting demo_second) as Hw.
  { vm_compute. apply list_elem_of_here. }
  destruct (handleSubscribe_resume_isolated demo_db demo_second demo_A
              demo_second_reachable Hw) as (Hgone & _ & _ & Hothers & _).
  split_and!; [exact demo_second_reachable|exact Hw|exact Hgone|].
  apply Hothers; [|done].
  vm_compute. apply list_elem_of_further, list_elem_of_here.
Defined.

(** D subscribes to r2 and an event for r2 is published at once. *)
Lemma subscribe_then_publish_witness :
  reachable demo_db demo_subscribed
  ∧ (@ws_Upgrade demo_libs NewResponseWriter demo_request_D).2 = None
  ∧ writes_to 4
      (wire (notifyClients demo_order_r2 demo_msg_r2
               (handleSubscribe demo_subscribed NewResponseWriter
                  demo_request_D).1))
    = [write_outcome (broken demo_subscribed) 4 demo_msg_r2].
Proof.
  assert (range_visits
            (default ∅
               (subscribers (handleSubscribe demo_subscribed
                               NewResponseWriter demo_request_D).1
                !! RoomID demo_msg_r2)) demo_order_r2) as Hv.
  { unfold range_visits. vm_compute. first [reflexivity | apply perm_swap]. }
  destruct (subscribe_then_publish demo_db demo_subscribed NewResponseWriter
              demo_request_D "r2" "r2" demo_msg_r2 demo_order_r2
              demo_subscribed_reachable) as (_ & _ & Hone & _);
    [vm_compute; reflexivity..|exact Hv|].
  split_and!; [exact demo_subscribed_reachable|reflexivity|exact Hone].
Defined.

(** Posting a message without a room identifier. *)
Lemma bad_request_changes_nothing_witness :
  Status (ServeHTTP POST_messages demo_subscribed NewResponseWriter
            (demo_request "" "10.0.0.9")).2 = Some StatusBadRequest
  ∧ (ServeHTTP POST_messages demo_subscribed NewResponseWriter
       (demo_request "" "10.0.0.9")).1 = demo_subscribed.
Proof.
  assert (Status (ServeHTTP POST_messages demo_subscribed NewResponseWriter
                    (demo_request "" "10.0.0.9")).2 = Some StatusBadRequest)
    as Hst by (vm_compute; reflexivity).
  split; [exact Hst|].
  apply bad_request_changes_nothing; [done|exact Hst].
Defined.

(** Listing the rooms while the store is down: the answer is 500 and the
    store's error is in the log. *)
Lemma server_error_is_logged_witness :
  GET_rooms ≠ GET_subscribe
  ∧ @store_failed demo_libs demo_down_store demo_down_start
      (demo_request "" "10.0.0.9") GET_rooms "failed to get rooms" demo_down
  ∧ Status (ServeHTTP GET_rooms demo_down_start NewResponseWriter
              (demo_request "" "10.0.0.9")).2 = Some StatusInternalServerError
  ∧ logs (ServeHTTP GET_rooms demo_down_start NewResponseWriter
            (demo_request "" "10.0.0.9")).1
    = [{| log_level := LevelError; log_msg := "failed to get rooms";
          log_attrs := [("error", "connection refused")] |}]
  ∧ goroutines (ServeHTTP GET_rooms demo_down_start NewResponseWriter
                  (demo_request "" "10.0.0.9")).1 = [].
Proof.
  assert (GET_rooms ≠ GET_subscribe) as Hrt by done.
  assert (@store_failed demo_libs demo_down_store demo_down_start
            (demo_request "" "10.0.0.9") GET_rooms "failed to get rooms"
            demo_down) as Hfail.
  { apply failed_GetRooms. reflexivity. }
  destruct (server_error_is_logged GET_rooms demo_down_start
              (demo_request "" "10.0.0.9") Hrt) as (Hfwd & Hback).
  destruct (Hback _ _ Hfail) as (Hst & Hlogs).
  destruct (Hfwd Hst) as (_ & Hgo & _).
  split_and!; [exact Hrt|exact Hfail|exact Hst|exact Hlogs|exact Hgo].
Defined.

(** The answer to listing the rooms of the run is JSON. *)
Lemma handlers_answer_witness :
  GET_rooms ≠ GET_subscribe
  ∧ Header (ServeHTTP GET_rooms demo_subscribed NewResponseWriter
              (demo_request "" "10.0.0.9")).2 !! "Content-Type"
    = Some "application/json".
Proof.
  assert (GET_rooms ≠ GET_subscribe) as Hrt by done.
  destruct (handlers_answer GET_rooms demo_subscribed
              (demo_request "" "10.0.0.9") Hrt) as (_ & _ & Hjson).
  split; [exact Hrt|]. apply Hjson. vm_compute. reflexivity.
Defined.

(** Message m1 is answered the same under r1 and under r2. *)
Lemma handleGetRoomMessage_any_room_witness :
  URLParam (demo_request "r1" "10.0.0.9") "message_id"
  = URLParam (demo_request "r2" "10.0.0.9") "message_id"
  ∧ handleGetRoomMessage demo_subscribed NewResponseWriter
      (demo_request "r1" "10.0.0.9")
    = handleGetRoomMessage demo_subscribed NewResponseWriter
        (demo_request "r2" "10.0.0.9").
Proof.
  assert (URLParam (demo_request "r1" "10.0.0.9") "message_id"
          = URLParam (demo_request "r2" "10.0.0.9") "message_id") as Hmsg
    by (vm_compute; reflexivity).
  split; [exact Hmsg|].
  apply (handleGetRoomMessage_any_room demo_subscribed NewResponseWriter
           (demo_request "r1" "10.0.0.9") (demo_request "r2" "10.0.0.9")
           "r1" "r2" "r1" "r2"); [vm_compute; reflexivity..|exact Hmsg].
Defined.

(** Reacting to m1 in r1: the answer and the event carry the count 1. *)
Lemma event_agrees_with_answer_witness :
  ∃ count,
    Body (ServeHTTP PATCH_react demo_subscribed NewResponseWriter
            (demo_request "r1" "10.0.0.9")).2
    = @json_encode demo_libs (JObject [("count", JNumber (int64_val count))])
    ∧ int64_val count = 1%Z.
Proof.
  destruct (event_agrees_with_answer demo_subscribed
              (demo_request "r1" "10.0.0.9")) as (_ & Hreact & _).
  destruct Hreact as (count & Hbody & Hgo); [vm_compute; reflexivity|].
  exists count. split; [exact Hbody|].
  apply (f_equal (λ l, match l with
                       | [m] => MarshalJSON m
                       | _ => Err ErrNoRows
                       end)) in Hgo.
  vm_compute in Hgo. by injection Hgo.
Defined.

End RunMore.
